(** * PrivilegedSettingsContext: the editable-settings action facades

    A shallow embedding of [client/contexts/PrivilegedSettingsContext.ts]:
    the group actions ([save], [cancel]), the section action ([reset]) and
    the setting actions ([update], [reset]), together with the fragment of
    JavaScript they rely on ([JSON.stringify], [!==], [||], truthiness).

    The functions of the React context ([querySetting], [getSettingsGroup],
    [getSettingsSection]) are inputs of the hooks and appear here as the
    fields of a record; the collaborators the hooks call ([dispatch],
    [dispatchToEditableSettings], [loadLanguage], [dispatchToastMessage])
    are recorded as events of a trace. *)

From Stdlib Require Import ZArith Ascii String DecimalString DecimalZ DecimalPos List Bool Lia.
From stdpp Require Import base option list strings gmap.

Local Open Scope list_scope.

(** ** JavaScript values *)

(** The values a setting's [value] and [editor] can hold.  [JNum] stands for
    the integral numbers, which [Number::toString] prints as plain decimal
    digits; [JNaN] and [JInfinity] are the non-finite numbers.  The
    properties of an object are listed in enumeration order.  A string is a
    sequence of code units below 256. *)
#[local] Unset Elimination Schemes.
Inductive JsValue : Type :=
| JUndefined
| JNull
| JBool (b : bool)
| JNum (n : Z)
| JNaN
| JInfinity (negative : bool)
| JStr (s : string)
| JArr (items : list JsValue)
| JObj (props : list (string * JsValue)).
#[local] Set Elimination Schemes.

(** Induction over a value and, through [Forall], over the values it holds. *)
Section JsValueInduction.

Variable P : JsValue -> Prop.
Hypothesis onUndefined : P JUndefined.
Hypothesis onNull : P JNull.
Hypothesis onBool : forall b, P (JBool b).
Hypothesis onNum : forall n, P (JNum n).
Hypothesis onNaN : P JNaN.
Hypothesis onInfinity : forall negative, P (JInfinity negative).
Hypothesis onStr : forall s, P (JStr s).
Hypothesis onArr : forall items, Forall P items -> P (JArr items).
Hypothesis onObj : forall props, Forall (fun kx => P (snd kx)) props -> P (JObj props).

Fixpoint JsValue_ind (v : JsValue) : P v :=
  match v with
  | JUndefined => onUndefined
  | JNull => onNull
  | JBool b => onBool b
  | JNum n => onNum n
  | JNaN => onNaN
  | JInfinity negative => onInfinity negative
  | JStr s => onStr s
  | JArr items =>
      onArr items
        ((fix each (l : list JsValue) : Forall P l :=
            match l with
            | [] => List.Forall_nil P
            | x :: l' => @List.Forall_cons _ P x l' (JsValue_ind x) (each l')
            end) items)
  | JObj props =>
      onObj props
        ((fix each (l : list (string * JsValue)) : Forall (fun kx => P (snd kx)) l :=
            match l with
            | [] => List.Forall_nil _
            | kx :: l' =>
                @List.Forall_cons _ (fun kx => P (snd kx)) kx l' (JsValue_ind (snd kx)) (each l')
            end) props)
  end.

End JsValueInduction.

(** ToBoolean, as used by [||], [!] and [if]. *)
Definition toBoolean (v : JsValue) : bool :=
  match v with
  | JUndefined | JNull | JNaN => false
  | JBool b => b
  | JNum n => negb (n =? 0)%Z
  | JStr s => negb (String.eqb s EmptyString)
  | JInfinity _ | JArr _ | JObj _ => true
  end.

(** [a || b] *)
Definition jsOr (a b : JsValue) : JsValue :=
  if toBoolean a then a else b.

(** [v === undefined] *)
Definition isUndefined (v : JsValue) : bool :=
  match v with JUndefined => true | _ => false end.

(** ** JSON.stringify *)

Module JSON.

Definition quoteChar : ascii := "034"%char.
Definition backslash : ascii := "\"%char.

Definition hexDigit (n : nat) : ascii :=
  nth n (list_ascii_of_string "0123456789abcdef") "0"%char.

(** One code unit of QuoteJSONString. *)
Definition escapeChar (c : ascii) : list ascii :=
  let n := nat_of_ascii c in
  if Nat.eqb n 8 then [backslash; "b"%char]
  else if Nat.eqb n 9 then [backslash; "t"%char]
  else if Nat.eqb n 10 then [backslash; "n"%char]
  else if Nat.eqb n 12 then [backslash; "f"%char]
  else if Nat.eqb n 13 then [backslash; "r"%char]
  else if Nat.eqb n 34 then [backslash; quoteChar]
  else if Nat.eqb n 92 then [backslash; backslash]
  else if Nat.ltb n 32 then
    [backslash; "u"%char; "0"%char; "0"%char;
     hexDigit (Nat.div n 16); hexDigit (Nat.modulo n 16)]
  else [c].

Definition escapeBody (s : list ascii) : list ascii :=
  List.concat (List.map escapeChar s).

(** QuoteJSONString *)
Definition quote (s : string) : list ascii :=
  quoteChar :: escapeBody (list_ascii_of_string s) ++ [quoteChar].

(** Number::toString on an integral number. *)
Definition numberToString (n : Z) : list ascii :=
  list_ascii_of_string (NilZero.string_of_int (Z.to_int n)).

Definition null : list ascii := list_ascii_of_string "null".

(** The elements of an array or the members of an object, separated by
    commas. *)
Fixpoint commaJoin (parts : list (list ascii)) : list ascii :=
  match parts with
  | [] => []
  | [p] => p
  | p :: rest => p ++ ","%char :: commaJoin rest
  end.

(** SerializeJSONProperty: [None] is the [undefined] result.  Inside an
    array an [undefined] result is printed as [null]; inside an object
    the property is left out. *)
Fixpoint serialize (v : JsValue) : option (list ascii) :=
  match v with
  | JUndefined => None
  | JNull => Some null
  | JBool true => Some (list_ascii_of_string "true")
  | JBool false => Some (list_ascii_of_string "false")
  | JNum n => Some (numberToString n)
  | JNaN | JInfinity _ => Some null
  | JStr s => Some (quote s)
  | JArr items =>
      let element x := match serialize x with Some t => t | None => null end in
      Some ("["%char :: commaJoin (List.map element items) ++ ["]"%char])
  | JObj props =>
      let member (kx : string * JsValue) :=
        match serialize (snd kx) with
        | Some t => [quote (fst kx) ++ ":"%char :: t]
        | None => []
        end in
      Some ("{"%char :: commaJoin (List.concat (List.map member props)) ++ ["}"%char])
  end.

(** [JSON.stringify(v)]: a string, or [undefined] ([None]). *)
Definition stringify (v : JsValue) : option string :=
  string_of_list_ascii <$> serialize v.

(** The text of an array element and the text of an object member, as
    [serialize] computes them. *)
Definition element (x : JsValue) : list ascii :=
  match serialize x with Some t => t | None => null end.

Definition member (kx : string * JsValue) : list (list ascii) :=
  match serialize (snd kx) with
  | Some t => [quote (fst kx) ++ ":"%char :: t]
  | None => []
  end.

(** The values whose text keeps all of them: no [undefined], [NaN] or
    infinity at any depth. *)
Fixpoint faithful (v : JsValue) : bool :=
  match v with
  | JNull | JBool _ | JNum _ | JStr _ => true
  | JUndefined | JNaN | JInfinity _ => false
  | JArr items => forallb faithful items
  | JObj props => forallb (fun kx => faithful (snd kx)) props
  end.

(** The values [stringify] tells apart: the faithful ones and [undefined]
    itself. *)
Definition comparable (v : JsValue) : bool :=
  isUndefined v || faithful v.

(** *** Reading the text back

    What is needed to show that the text determines the value. *)

Definition hexValue (c : ascii) : nat :=
  let n := nat_of_ascii c in
  if Nat.leb 97 n then n - 87 else n - 48.

(** Reads back one code unit written by [escapeChar]; [None] at the closing
    quote. *)
Definition unescapeChar (l : list ascii) : option (ascii * list ascii) :=
  match l with
  | [] => None
  | c :: r =>
      if Ascii.eqb c quoteChar then None
      else if Ascii.eqb c backslash then
        match r with
        | [] => None
        | e :: r' =>
            if Ascii.eqb e "b" then Some ("008"%char, r')
            else if Ascii.eqb e "t" then Some ("009"%char, r')
            else if Ascii.eqb e "n" then Some ("010"%char, r')
            else if Ascii.eqb e "f" then Some ("012"%char, r')
            else if Ascii.eqb e "r" then Some ("013"%char, r')
            else if Ascii.eqb e quoteChar then Some (quoteChar, r')
            else if Ascii.eqb e backslash then Some (backslash, r')
            else if Ascii.eqb e "u" then
              match r' with
              | _ :: _ :: h :: l :: r'' =>
                  Some (ascii_of_nat (16 * hexValue h + hexValue l), r'')
              | _ => None
              end
            else None
        end
      else Some (c, r)
  end.

(** The characters of a printed integer. *)
Definition isNumberChar (c : ascii) : bool :=
  Ascii.eqb c "-" || (Nat.leb 48 (nat_of_ascii c) && Nat.leb (nat_of_ascii c) 57).

(** What follows a value inside a text: nothing, a comma or a closing
    bracket. *)
Definition delimited (r : list ascii) : bool :=
  match r with
  | [] => true
  | c :: _ => Ascii.eqb c "," || Ascii.eqb c "]" || Ascii.eqb c "}"
  end.

(** The kind of value a text starts with, and the kind of a value. *)
Definition kind (l : list ascii) : nat :=
  match l with
  | [] => 0
  | c :: _ =>
      if Ascii.eqb c "n" then 1
      else if Ascii.eqb c "t" then 2
      else if Ascii.eqb c "f" then 3
      else if isNumberChar c then 4
      else if Ascii.eqb c quoteChar then 5
      else if Ascii.eqb c "[" then 6
      else if Ascii.eqb c "{" then 7
      else 0
  end.

Definition tag (v : JsValue) : nat :=
  match v with
  | JNull => 1
  | JBool true => 2
  | JBool false => 3
  | JNum _ => 4
  | JStr _ => 5
  | JArr _ => 6
  | JObj _ => 7
  | JUndefined | JNaN | JInfinity _ => 0
  end.

(** [commaJoin (p :: parts) ++ rest] is [p ++ tailBefore parts rest]. *)
Fixpoint tailBefore (parts : list (list ascii)) (rest : list ascii) : list ascii :=
  match parts with
  | [] => rest
  | p :: parts' => ","%char :: p ++ tailBefore parts' rest
  end.

Definition memberText (kx : string * JsValue) : list ascii :=
  quote (fst kx) ++ ":"%char :: element (snd kx).

(** The text of [v1], followed by what may follow a value, determines [v1]
    among the faithful values. *)
Definition determined (v1 : JsValue) : Prop :=
  faithful v1 = true ->
  forall v2 r1 r2,
    faithful v2 = true -> delimited r1 = true -> delimited r2 = true ->
    element v1 ++ r1 = element v2 ++ r2 -> v1 = v2 /\ r1 = r2.

End JSON.

(** [JSON.stringify(a) !== JSON.stringify(b)] *)
Definition stringifyDiffers (a b : JsValue) : bool :=
  negb (bool_decide (JSON.stringify a = JSON.stringify b)).

(** ** The data model *)

Definition SettingId : Type := string.
Definition GroupId : Type := string.
Definition SectionName : Type := string.

(** [ISetting], with the fields this file reads. *)
Record ISetting : Type := {
  _id : SettingId;
  value : JsValue;
  editor : JsValue;
  packageValue : JsValue;
  packageEditor : JsValue;
}.

(** [IEditableSetting extends ISetting] *)
Record IEditableSetting : Type := {
  setting :> ISetting;
  disabled : bool;
  changed : bool;
}.

Module SectionDescriptor.
Record t : Type := {
  name : SectionName;
  editableSettings : list IEditableSetting;
  settings : list SettingId;
  changed : bool;
  canReset : bool;
}.
End SectionDescriptor.

Module GroupDescriptor.
(** [IEditableSetting & { editableSettings; sections; changed }] *)
Record t : Type := {
  self :> IEditableSetting;
  editableSettings : list IEditableSetting;
  sections : list SectionName;
  changed : bool;
}.
End GroupDescriptor.

(** An element of the array given to [dispatch]: [{ _id, value, editor }]. *)
Record Change : Type := {
  change_id : SettingId;
  change_value : JsValue;
  change_editor : JsValue;
}.

(** An element of the array given to [dispatchToEditableSettings].  A key
    the object literal does not have is [None]; a key that is present and
    holds [undefined] is [Some JUndefined]. *)
Record Patch : Type := {
  patch_id : option SettingId;
  patch_value : option JsValue;
  patch_editor : option JsValue;
  patch_changed : option bool;
}.

(** The object literal [{}]. *)
Definition emptyPatch : Patch :=
  {| patch_id := None; patch_value := None; patch_editor := None; patch_changed := None |}.

(** How a promise settles. *)
Inductive Outcome : Type :=
| Resolved
| Rejected (error : JsValue).

(** The part of [PrivilegedSettingsContextValue] the action hooks use.
    [querySetting] stands for [querySetting(_id).getCurrentValue()];
    [dispatch] gives the way the promise of [dispatch(changes)] settles. *)
Record PrivilegedSettingsContextValue : Type := {
  querySetting : SettingId -> option ISetting;
  dispatch : list Change -> Outcome;
  getSettingsGroup : GroupId -> option GroupDescriptor.t;
  getSettingsSection : GroupId -> SectionName -> option SectionDescriptor.t;
}.

(** [useUser()]: the fields of the user this file reads. *)
Record IUser : Type := {
  language : JsValue;
}.

(** ** Effects *)

Inductive ToastType : Type := type_success | type_error.

(** The calls made to the collaborators, in order. *)
Inductive Event : Type :=
| Dispatch (changes : list Change)
| DispatchToEditableSettings (patches : list Patch)
| LoadLanguage (lng : JsValue)
| DispatchToastMessage (type : ToastType) (message : JsValue).

(** A computation: the trace of its calls, and either the exception it
    throws or its result. *)
Definition Eff (A : Type) : Type := (list Event * (JsValue + A))%type.

#[global] Instance Eff_ret : MRet Eff := fun A a => ([], inr a).

#[global] Instance Eff_bind : MBind Eff := fun A B k m =>
  match m with
  | (tr, inl e) => (tr, inl e)
  | (tr, inr a) => let '(tr', r) := k a in (tr ++ tr', r)
  end.

(** [try { m } catch (error) { h error }] *)
Definition tryCatch {A : Type} (m : Eff A) (h : JsValue -> Eff A) : Eff A :=
  match m with
  | (tr, inl e) => let '(tr', r) := h e in (tr ++ tr', r)
  | (tr, inr a) => (tr, inr a)
  end.

(** A call to a collaborator that returns nothing. *)
Definition call (ev : Event) : Eff unit := ([ev], inr tt).

(** [await] of a call to a collaborator that returns a promise. *)
Definition await (ev : Event) (o : Outcome) : Eff unit :=
  ([ev], match o with Resolved => inr tt | Rejected e => inl e end).

Definition trace {A : Type} (m : Eff A) : list Event := fst m.

(** ** usePrivilegedSettingsGroupActions *)

Module usePrivilegedSettingsGroupActions.
Section Hook.

Variable ctx : PrivilegedSettingsContextValue.
(** [useTranslation()]: the key and the [lng] option, if given. *)
Variable t : string -> option JsValue -> string.
(** [useLoadLanguage()]: the way the promise of [loadLanguage(lng)] settles. *)
Variable loadLanguage : JsValue -> Outcome.
(** [useUser()] *)
Variable user : option IUser.
Variable groupId : GroupId.

(** [getSettingsGroup(groupId)?.editableSettings ?? []] *)
Definition groupEditableSettings : list IEditableSetting :=
  match getSettingsGroup ctx groupId with
  | Some g => GroupDescriptor.editableSettings g
  | None => []
  end.

(** [({ _id, value, editor }) => ({ _id, value, editor })] *)
Definition toChange (s : IEditableSetting) : Change :=
  {| change_id := _id s; change_value := value s; change_editor := editor s |}.

(** [({ _id }) => _id === 'Language'] *)
Definition isLanguage (c : Change) : bool :=
  String.eqb (change_id c) "Language".

(** [user?.language] *)
Definition userLanguage : JsValue :=
  match user with
  | Some u => language u
  | None => JUndefined
  end.

(** [changes.filter(({ _id }) => _id === 'Language').shift()?.value] *)
Definition languageValue (changes : list Change) : JsValue :=
  match List.filter isLanguage changes with
  | c :: _ => change_value c
  | [] => JUndefined
  end.

Definition changesOf (l : list IEditableSetting) : list Change :=
  List.map toChange (List.filter (fun s => changed s) l).

Definition save : Eff unit :=
  let changes := changesOf groupEditableSettings in
  if Nat.eqb (length changes) 0 then mret tt
  else
    tryCatch
      (await (Dispatch changes) (dispatch ctx changes);;
       if List.existsb isLanguage changes then
         let lng := jsOr (jsOr userLanguage (languageValue changes)) (JStr "en") in
         await (LoadLanguage lng) (loadLanguage lng);;
         call (DispatchToastMessage type_success
                 (JStr (t "Settings_updated" (Some lng))));;
         mret tt
       else
         call (DispatchToastMessage type_success
                 (JStr (t "Settings_updated" None))))
      (fun error => call (DispatchToastMessage type_error error)).

(** The callback of [map] in [cancel]. *)
Definition restore (editableSetting : IEditableSetting) : Patch :=
  match querySetting ctx (_id editableSetting) with
  | None => emptyPatch
  | Some setting =>
      {| patch_id := Some (_id setting);
         patch_value := Some (value setting);
         patch_editor := Some (editor setting);
         patch_changed := Some false |}
  end.

Definition cancel : Eff unit :=
  call (DispatchToEditableSettings
          (List.map restore
             (List.filter (fun s => changed s) groupEditableSettings))).

End Hook.
End usePrivilegedSettingsGroupActions.

(** ** usePrivilegedSettingsSectionActions *)

Module usePrivilegedSettingsSectionActions.
Section Hook.

Variable ctx : PrivilegedSettingsContextValue.
Variable groupId : GroupId.
Variable sectionName : SectionName.

(** The callback of [map] in [reset]. *)
Definition toPackage (s : IEditableSetting) : Patch :=
  {| patch_id := Some (_id s);
     patch_value := Some (packageValue s);
     patch_editor := Some (packageEditor s);
     patch_changed :=
       Some (stringifyDiffers (value s) (packageValue s)
             || stringifyDiffers (editor s) (packageEditor s)) |}.

Definition reset : Eff unit :=
  match getSettingsSection ctx groupId sectionName with
  | None => mret tt
  | Some sectionDescriptor =>
      call (DispatchToEditableSettings
              (List.map toPackage
                 (List.filter (fun s => negb (disabled s))
                    (SectionDescriptor.editableSettings sectionDescriptor))))
  end.

End Hook.
End usePrivilegedSettingsSectionActions.

(** ** usePrivilegedSettingActions *)

Module usePrivilegedSettingActions.

(** The delay given to [useDebouncedCallback], in milliseconds. *)
Definition debounceDelay : Z := 100.

Section Hook.

Variable ctx : PrivilegedSettingsContextValue.
Variable id : SettingId.

(** [...x !== undefined && { x }]: the key is there only when [x] is not
    [undefined]. *)
Definition spreadDefined (x : JsValue) : option JsValue :=
  if isUndefined x then None else Some x.

(** The callback debounced as [update], called with [{ value, editor }]. *)
Definition update (value' editor' : JsValue) : Eff unit :=
  match querySetting ctx id with
  | None => mret tt
  | Some persistedSetting =>
      call (DispatchToEditableSettings
              [{| patch_id := Some id;
                  patch_value := spreadDefined value';
                  patch_editor := spreadDefined editor';
                  patch_changed :=
                    Some (stringifyDiffers (value persistedSetting) value'
                          || stringifyDiffers (editor persistedSetting) editor') |}])
  end.

(** The callback debounced as [reset]. *)
Definition reset : Eff unit :=
  match querySetting ctx id with
  | None => mret tt
  | Some persistedSetting =>
      call (DispatchToEditableSettings
              [{| patch_id := Some (_id persistedSetting);
                  patch_value := Some (packageValue persistedSetting);
                  patch_editor := Some (packageEditor persistedSetting);
                  patch_changed :=
                    Some (stringifyDiffers (packageValue persistedSetting)
                                           (value persistedSetting)
                          || stringifyDiffers (packageEditor persistedSetting)
                                              (editor persistedSetting)) |}])
  end.

End Hook.
End usePrivilegedSettingActions.

(** ** Deep structural equality

    [deepEqual] is deep equality with the order of properties included: two
    values are equal when they are built the same way, the same scalar,
    arrays with deeply equal elements in the same positions, objects with
    the same keys, in the same order, holding deeply equal values. *)
Fixpoint deepEqual (a b : JsValue) : bool :=
  match a, b with
  | JUndefined, JUndefined => true
  | JNull, JNull => true
  | JBool x, JBool y => Bool.eqb x y
  | JNum x, JNum y => (x =? y)%Z
  | JNaN, JNaN => true
  | JInfinity x, JInfinity y => Bool.eqb x y
  | JStr x, JStr y => String.eqb x y
  | JArr xs, JArr ys =>
      (fix each (xs ys : list JsValue) : bool :=
         match xs, ys with
         | [], [] => true
         | x :: xs', y :: ys' => deepEqual x y && each xs' ys'
         | _, _ => false
         end) xs ys
  | JObj ps, JObj qs =>
      (fix each (ps qs : list (string * JsValue)) : bool :=
         match ps, qs with
         | [], [] => true
         | p :: ps', q :: qs' =>
             String.eqb (fst p) (fst q) && deepEqual (snd p) (snd q) && each ps' qs'
         | _, _ => false
         end) ps qs
  | _, _ => false
  end.



(** ** The editable overlay *)

Module EditableOverlay.
Section Overlay.

(** The persisted settings, and the relevance predicate that gives
    [disabled]. *)
Variable persisted : gmap SettingId ISetting.
Variable isDisabled : ISetting -> bool.

(** Modelled from the spec: [getEditableSetting], which the provider of the
    context implements and this file only declares.  An overlay entry if
    there is one, else an entry made from the persisted record with
    [changed = false]. *)
Definition get (overlay : gmap SettingId IEditableSetting) (id : SettingId)
    : option IEditableSetting :=
  match overlay !! id with
  | Some e => Some e
  | None =>
      (fun s => {| setting := s; disabled := isDisabled s; changed := false |})
        <$> persisted !! id
  end.

(** Modelled from the spec: the merge of one patch into an entry.  The keys
    the patch has replace the entry's; [changed], when the patch does not
    give it, is recomputed by comparing the merged [value] and [editor] with
    the persisted record's under deep structural equality. *)
Definition merge (record : ISetting) (e : IEditableSetting) (p : Patch) : IEditableSetting :=
  let v := default (value e) (patch_value p) in
  let ed := default (editor e) (patch_editor p) in
  {| setting :=
       {| _id := _id e; value := v; editor := ed;
          packageValue := packageValue e; packageEditor := packageEditor e |};
     disabled := disabled e;
     changed :=
       default (negb (deepEqual v (value record)) || negb (deepEqual ed (editor record)))
               (patch_changed p) |}.

(** Modelled from the spec: [dispatchToEditableSettings], which the provider
    of the context implements and this file only declares.  A patch without
    an id, or whose id has no persisted record, is dropped. *)
Definition applyPatch (overlay : gmap SettingId IEditableSetting) (p : Patch)
    : gmap SettingId IEditableSetting :=
  match patch_id p with
  | None => overlay
  | Some id =>
      match persisted !! id, get overlay id with
      | Some record, Some e => <[id := merge record e p]> overlay
      | _, _ => overlay
      end
  end.

Definition applyPatches (overlay : gmap SettingId IEditableSetting) (patches : list Patch)
    : gmap SettingId IEditableSetting :=
  foldl applyPatch overlay patches.

(** The overlay after the calls of a trace. *)
Definition run (overlay : gmap SettingId IEditableSetting) (tr : list Event)
    : gmap SettingId IEditableSetting :=
  foldl (fun o ev =>
           match ev with
           | DispatchToEditableSettings patches => applyPatches o patches
           | _ => o
           end) overlay tr.

End Overlay.
End EditableOverlay.

(** The dirty invariant of an entry against the persisted record, as the
    facades test it: [changed] tells whether the [JSON.stringify] text of
    the entry's value or editor differs from the text of the record's; for
    comparable values it is the negation of their deep equality. *)
Definition dirtyInvariant (record : ISetting) (s : IEditableSetting) : Prop :=
  (changed s = true <->
   JSON.stringify (value s) <> JSON.stringify (value record)
   \/ JSON.stringify (editor s) <> JSON.stringify (editor record))
  /\ (JSON.comparable (value s) = true -> JSON.comparable (editor s) = true ->
      JSON.comparable (value record) = true -> JSON.comparable (editor record) = true ->
      changed s = negb (deepEqual (value s) (value record)
                        && deepEqual (editor s) (editor record))).

(** ** Reading a trace *)

(** The batches given to [dispatch]. *)
Definition dispatchCalls (tr : list Event) : list (list Change) :=
  omap (fun ev => match ev with Dispatch c => Some c | _ => None end) tr.

(** The arrays given to [dispatchToEditableSettings]. *)
Definition editableCalls (tr : list Event) : list (list Patch) :=
  omap (fun ev => match ev with DispatchToEditableSettings p => Some p | _ => None end) tr.

(** The languages given to [loadLanguage]. *)
Definition loadLanguageCalls (tr : list Event) : list JsValue :=
  omap (fun ev => match ev with LoadLanguage l => Some l | _ => None end) tr.

(** The toast messages, by type. *)
Definition toastCalls (ty : ToastType) (tr : list Event) : list JsValue :=
  omap (fun ev =>
          match ev, ty with
          | DispatchToastMessage type_success m, type_success => Some m
          | DispatchToastMessage type_error m, type_error => Some m
          | _, _ => None
          end) tr.

(** ** Sample data *)

Module Sample.

Definition mkSetting (id : SettingId) (v e pv pe : JsValue) : ISetting :=
  {| _id := id; value := v; editor := e; packageValue := pv; packageEditor := pe |}.

Definition mkEditable (s : ISetting) (isDisabled isChanged : bool) : IEditableSetting :=
  {| setting := s; disabled := isDisabled; changed := isChanged |}.

Definition general : ISetting :=
  mkSetting "General" JUndefined JUndefined JUndefined JUndefined.

(** A context with one group, [General], whose only section has the given
    members; [records] are the persisted settings. *)
Definition context (records : list ISetting) (members : list IEditableSetting)
    (dispatched : Outcome) : PrivilegedSettingsContextValue :=
  {| querySetting := fun id => List.find (fun s => String.eqb (_id s) id) records;
     dispatch := fun _ => dispatched;
     getSettingsGroup := fun g =>
       if String.eqb g "General" then
         Some {| GroupDescriptor.self := mkEditable general false false;
                 GroupDescriptor.editableSettings := members;
                 GroupDescriptor.sections := [EmptyString];
                 GroupDescriptor.changed := List.existsb (fun s => changed s) members |}
       else None;
     getSettingsSection := fun g n =>
       if String.eqb g "General" then
         Some {| SectionDescriptor.name := n;
                 SectionDescriptor.editableSettings := members;
                 SectionDescriptor.settings := List.map (fun s => _id (setting s)) members;
                 SectionDescriptor.changed := List.existsb (fun s => changed s) members;
                 SectionDescriptor.canReset :=
                   List.existsb
                     (fun s => negb (disabled s)
                               && (stringifyDiffers (value s) (packageValue s)
                                   || stringifyDiffers (editor s) (packageEditor s)))
                     members |}
       else None |}.

Definition t (key : string) (options : option JsValue) : string := key.

Definition loaded (lng : JsValue) : Outcome := Resolved.

(** Persisted records. *)
Definition languageRecord : ISetting :=
  mkSetting "Language" (JStr "en") JUndefined (JStr "") JUndefined.
Definition siteName : ISetting :=
  mkSetting "Site_Name" (JStr "Rocket.Chat") JUndefined (JStr "Rocket.Chat") JUndefined.
Definition color : ISetting :=
  mkSetting "theme-color-primary" (JStr "#1d74f5") (JStr "color")
            (JStr "#175cc4") (JStr "color").

Definition records : list ISetting := [languageRecord; siteName; color].

(** The same settings under edit: the language was changed to [pt-BR],
    the site name is as persisted, the colour was changed and is disabled. *)
Definition languageEdited : IEditableSetting :=
  mkEditable (mkSetting "Language" (JStr "pt-BR") JUndefined (JStr "") JUndefined)
             false true.
Definition siteNameUnedited : IEditableSetting := mkEditable siteName false false.
Definition colorEdited : IEditableSetting :=
    mkEditable (mkSetting "theme-color-primary" (JStr "#ffffff") (JStr "color")
                          (JStr "#175cc4") (JStr "color"))
               true true.
  (** A setting under edit whose persisted record is gone. *)
Definition orphanEdited : IEditableSetting :=
  mkEditable (mkSetting "Removed_Setting" (JNum 1) JUndefined (JNum 0) JUndefined)
             false true.

Definition members : list IEditableSetting :=
  [languageEdited; siteNameUnedited; colorEdited; orphanEdited].

Definition ctx : PrivilegedSettingsContextValue := context records members Resolved.

(** The same group with nothing under edit. *)
Definition ctxUnedited : PrivilegedSettingsContextValue :=
  context records [siteNameUnedited; mkEditable languageRecord false false] Resolved.

(** The change [save] dispatches for [languageEdited]. *)
Definition languageChange : Change :=
  {| change_id := "Language"; change_value := JStr "pt-BR"; change_editor := JUndefined |}.


(** An asset setting: the persisted value is an object with one property;
    [logoWithUndefinedUrl] has one more property, which holds [undefined]. *)
Definition logo : JsValue := JObj [("defaultUrl", JStr "images/logo/logo.svg")].
Definition logoWithUndefinedUrl : JsValue :=
  JObj [("url", JUndefined); ("defaultUrl", JStr "images/logo/logo.svg")].
Definition asset : ISetting := mkSetting "Assets_logo" logo JUndefined logo JUndefined.
Definition assetPackaged : ISetting :=
  mkSetting "Assets_logo" logo JUndefined logoWithUndefinedUrl JUndefined.
Definition ctxAsset : PrivilegedSettingsContextValue := context [asset] [] Resolved.
Definition ctxAssetPackaged : PrivilegedSettingsContextValue :=
  context [assetPackaged] [] Resolved.

(** A setting persisted as [2] whose package default is [1], under edit with
    the value [1] already. *)
Definition retention : ISetting :=
  mkSetting "RetentionPolicy_MaxAge" (JNum 2) JUndefined (JNum 1) JUndefined.
Definition retentionAtDefault : IEditableSetting :=
  mkEditable (mkSetting "RetentionPolicy_MaxAge" (JNum 1) JUndefined (JNum 1) JUndefined)
             false true.
Definition ctxRetention : PrivilegedSettingsContextValue :=
  context [retention] [retentionAtDefault] Resolved.

End Sample.

(** ** The default context *)

(** The value given to [createContext], which the hooks see outside a
    provider: no setting, no group, no section, and a [dispatch] that
    resolves at once. *)
Definition defaultContext : PrivilegedSettingsContextValue :=
  {| querySetting := fun _ => None;
     dispatch := fun _ => Resolved;
     getSettingsGroup := fun _ => None;
     getSettingsSection := fun _ _ => None |}.

(** ** What a trace may hold *)

(** A trace that only talks to the overlay: at most one call, to
    [dispatchToEditableSettings]. *)
Definition overlayOnly (tr : list Event) : Prop :=
  dispatchCalls tr = []
  /\ loadLanguageCalls tr = []
  /\ toastCalls type_success tr = []
  /\ toastCalls type_error tr = []
  /\ (length tr <= 1)%nat.

(** A patch either names a setting and gives its [changed] flag, or is the
    empty object. *)
Definition flagged (p : Patch) : Prop :=
  match patch_id p with
  | Some _ => patch_changed p <> None
  | None => p = emptyPatch
  end.

(** More sample data: the group with only the colour under edit, which is
    disabled. *)
Module SampleOrder.
(** An object and the same object with its two properties set in the other
    order; a setting persisted with the first. *)
Definition ordered : JsValue := JObj [("a", JNum 1); ("b", JNum 2)].
Definition custom : ISetting :=
  Sample.mkSetting "Custom_Object" ordered JUndefined ordered JUndefined.
Definition ctx : PrivilegedSettingsContextValue := Sample.context [custom] [] Resolved.
End SampleOrder.

Module SampleColor.
Definition ctx : PrivilegedSettingsContextValue :=
  Sample.context Sample.records [Sample.colorEdited] Resolved.
Definition change : Change :=
  {| change_id := "theme-color-primary"; change_value := JStr "#ffffff";
     change_editor := JStr "color" |}.
End SampleColor.


(** ** Theorems *)

(** *** The text [JSON.stringify] gives determines the value *)

Module JSONFacts.
Import JSON.

Lemma unescape_escape (c : ascii) (r : list ascii) :
  unescapeChar (escapeChar c ++ r) = Some (c, r).
Proof.
  destruct c as [[] [] [] [] [] [] [] []]; reflexivity.
Qed.

Lemma escapeChar_inj (c1 c2 : ascii) (r1 r2 : list ascii) :
  escapeChar c1 ++ r1 = escapeChar c2 ++ r2 -> c1 = c2 /\ r1 = r2.
Proof.
  intros H. apply (f_equal unescapeChar) in H.
  rewrite !unescape_escape in H. injection H as -> ->. split; reflexivity.
Qed.

Lemma escapeBody_cons (c : ascii) (s : list ascii) :
  escapeBody (c :: s) = escapeChar c ++ escapeBody s.
Proof. reflexivity. Qed.

Lemma escapeBody_inj (s1 s2 r1 r2 : list ascii) :
  escapeBody s1 ++ quoteChar :: r1 = escapeBody s2 ++ quoteChar :: r2 ->
  s1 = s2 /\ r1 = r2.
Proof.
  revert s2. induction s1 as [|c1 s1 IH]; intros [|c2 s2] H.
  - injection H as ->. split; reflexivity.
  - rewrite escapeBody_cons, <- app_assoc in H.
    apply (f_equal unescapeChar) in H. rewrite unescape_escape in H. discriminate.
  - rewrite escapeBody_cons, <- app_assoc in H.
    apply (f_equal unescapeChar) in H. rewrite unescape_escape in H. discriminate.
  - rewrite !escapeBody_cons, <- !app_assoc in H.
    apply escapeChar_inj in H as [-> H]. apply IH in H as [-> ->].
    split; reflexivity.
Qed.

Lemma list_ascii_of_string_inj (s1 s2 : string) :
  list_ascii_of_string s1 = list_ascii_of_string s2 -> s1 = s2.
Proof.
  intros H. apply (f_equal string_of_list_ascii) in H.
  rewrite !string_of_list_ascii_of_string in H. exact H.
Qed.

Lemma quote_inj (k1 k2 : string) (r1 r2 : list ascii) :
  quote k1 ++ r1 = quote k2 ++ r2 -> k1 = k2 /\ r1 = r2.
Proof.
  unfold quote. cbn [app]. rewrite <- !app_assoc. cbn [app].
  intros [= H]. apply escapeBody_inj in H as [H ->].
  split; [apply list_ascii_of_string_inj, H | reflexivity].
Qed.

(** Integers: the digits determine the number. *)

Lemma string_of_uint_chars (d : Decimal.uint) :
  forallb isNumberChar (list_ascii_of_string (NilEmpty.string_of_uint d)) = true.
Proof. induction d; cbn; auto. Qed.

Lemma string_of_uint_inj (d1 d2 : Decimal.uint) :
  NilEmpty.string_of_uint d1 = NilEmpty.string_of_uint d2 -> d1 = d2.
Proof.
  revert d2. induction d1; intros [] H; cbn in H; try discriminate H;
    try reflexivity; injection H as H; f_equal; auto.
Qed.

Lemma numberToString_spec (n : Z) :
  exists d, d <> Decimal.Nil /\
    numberToString n =
      (if (n <? 0)%Z then ["-"%char] else [])
        ++ list_ascii_of_string (NilEmpty.string_of_uint d) /\
    Z.to_int n = (if (n <? 0)%Z then Decimal.Neg d else Decimal.Pos d).
Proof.
  unfold numberToString. destruct n as [|p|p]; cbn.
  - exists (Decimal.D0 Decimal.Nil). repeat split. discriminate.
  - exists (Pos.to_uint p). pose proof (Unsigned.to_uint_nonnil p) as Hn.
    repeat split; [exact Hn|]. destruct (Pos.to_uint p); [contradiction|reflexivity..].
  - exists (Pos.to_uint p). pose proof (Unsigned.to_uint_nonnil p) as Hn.
    repeat split; [exact Hn|]. destruct (Pos.to_uint p); [contradiction|reflexivity..].
Qed.

Lemma numberToString_chars (n : Z) :
  forallb isNumberChar (numberToString n) = true.
Proof.
  destruct (numberToString_spec n) as (d & _ & -> & _).
  rewrite forallb_app, string_of_uint_chars.
  destruct (n <? 0)%Z; reflexivity.
Qed.

Lemma numberToString_head (n : Z) :
  exists c t, numberToString n = c :: t /\ isNumberChar c = true.
Proof.
  pose proof (numberToString_chars n) as Hc.
  destruct (numberToString_spec n) as (d & Hd & Hs & _).
  destruct (numberToString n) as [|c t] eqn:E.
  - destruct (n <? 0)%Z; [discriminate|]. destruct d; try discriminate. contradiction.
  - cbn in Hc. apply andb_prop in Hc as [Hc _]. eauto.
Qed.

Lemma numberToString_inj (n1 n2 : Z) :
  numberToString n1 = numberToString n2 -> n1 = n2.
Proof.
  intros H.
  destruct (numberToString_spec n1) as (d1 & _ & H1 & T1).
  destruct (numberToString_spec n2) as (d2 & _ & H2 & T2).
  rewrite H1, H2 in H.
  assert (Hi : Z.to_int n1 = Z.to_int n2).
  { rewrite T1, T2.
    pose proof (string_of_uint_chars d1) as C1.
    pose proof (string_of_uint_chars d2) as C2.
    destruct (n1 <? 0)%Z, (n2 <? 0)%Z; cbn [app] in H.
    - injection H as H. apply list_ascii_of_string_inj, string_of_uint_inj in H.
      congruence.
    - destruct d2; cbn in H; discriminate.
    - destruct d1; cbn in H; discriminate.
    - apply list_ascii_of_string_inj, string_of_uint_inj in H. congruence. }
  apply (f_equal Z.of_int) in Hi. rewrite !DecimalZ.of_to in Hi. exact Hi.
Qed.

(** A run of characters of one class ends where the class ends. *)
Lemma class_run_inj (P : ascii -> bool) (l1 l2 r1 r2 : list ascii) :
  forallb P l1 = true -> forallb P l2 = true ->
  match r1 with [] => True | c :: _ => P c = false end ->
  match r2 with [] => True | c :: _ => P c = false end ->
  l1 ++ r1 = l2 ++ r2 -> l1 = l2 /\ r1 = r2.
Proof.
  revert l2. induction l1 as [|a l1 IH]; intros [|b l2] H1 H2 S1 S2 H; cbn in *.
  - auto.
  - subst r1. apply andb_prop in H2 as [H2 _]. congruence.
  - subst r2. apply andb_prop in H1 as [H1 _]. congruence.
  - injection H as -> H.
    apply andb_prop in H1 as [_ H1]. apply andb_prop in H2 as [_ H2].
    destruct (IH l2 H1 H2 S1 S2 H) as [-> ->]. auto.
Qed.

Lemma delimited_not_number (r : list ascii) :
  delimited r = true -> match r with [] => True | c :: _ => isNumberChar c = false end.
Proof.
  destruct r as [|c r]; [trivial|]. cbn.
  intros H. apply orb_prop in H as [H|H]; [apply orb_prop in H as [H|H]|];
    apply Ascii.eqb_eq in H; subst c; reflexivity.
Qed.

Lemma numberToString_prefix (n1 n2 : Z) (r1 r2 : list ascii) :
  delimited r1 = true -> delimited r2 = true ->
  numberToString n1 ++ r1 = numberToString n2 ++ r2 -> n1 = n2 /\ r1 = r2.
Proof.
  intros D1 D2 H.
  destruct (class_run_inj isNumberChar _ _ _ _
              (numberToString_chars n1) (numberToString_chars n2)
              (delimited_not_number _ D1) (delimited_not_number _ D2) H) as [E ->].
  split; [apply numberToString_inj, E | reflexivity].
Qed.

(** Values: the text determines a faithful value. *)

Lemma serialize_faithful (v : JsValue) :
  faithful v = true -> serialize v = Some (element v).
Proof. unfold element. destruct v as [| |[]| | | | | |]; cbn; intros H; try discriminate; reflexivity. Qed.

Lemma element_arr (items : list JsValue) :
  element (JArr items) = "["%char :: commaJoin (List.map element items) ++ ["]"%char].
Proof. reflexivity. Qed.

Lemma element_obj (props : list (string * JsValue)) :
  element (JObj props) =
  "{"%char :: commaJoin (List.concat (List.map member props)) ++ ["}"%char].
Proof. reflexivity. Qed.

Lemma members_faithful (props : list (string * JsValue)) :
  forallb (fun kx => faithful (snd kx)) props = true ->
  List.concat (List.map member props) = List.map memberText props.
Proof.
  induction props as [|kx props IH]; cbn [forallb List.map List.concat]; [reflexivity|].
  intros H. apply andb_prop in H as [Hx H]. rewrite (IH H).
  unfold member, memberText. rewrite (serialize_faithful _ Hx). reflexivity.
Qed.

Lemma commaJoin_app (parts : list (list ascii)) (rest : list ascii) :
  commaJoin parts ++ rest =
  match parts with
  | [] => rest
  | p :: parts' => p ++ tailBefore parts' rest
  end.
Proof.
  induction parts as [|p parts IH]; [reflexivity|].
  destruct parts as [|q parts]; [reflexivity|].
  change (commaJoin (p :: q :: parts)) with (p ++ ","%char :: commaJoin (q :: parts)).
  rewrite <- app_assoc. cbn [app]. rewrite IH. reflexivity.
Qed.

Lemma kind_element (v : JsValue) (r : list ascii) :
  faithful v = true -> kind (element v ++ r) = tag v.
Proof.
  destruct v as [| |[]|n| | |s|items|props]; cbn [faithful]; intros H;
    try discriminate; try reflexivity.
  change (element (JNum n)) with (numberToString n).
  destruct (numberToString_head n) as (c & t & -> & Hc).
  cbn. unfold isNumberChar in Hc. 
  destruct (Ascii.eqb c "n") eqn:E1; [apply Ascii.eqb_eq in E1; subst c; discriminate|].
  destruct (Ascii.eqb c "t") eqn:E2; [apply Ascii.eqb_eq in E2; subst c; discriminate|].
  destruct (Ascii.eqb c "f") eqn:E3; [apply Ascii.eqb_eq in E3; subst c; discriminate|].
  unfold isNumberChar. rewrite Hc. reflexivity.
Qed.


Lemma cons_eq_inv (a : ascii) (l1 l2 : list ascii) : a :: l1 = a :: l2 -> l1 = l2.
Proof. intros [= H]. exact H. Qed.

Lemma memberText_app (k : string) (x : JsValue) (r : list ascii) :
  memberText (k, x) ++ r = quote k ++ ":"%char :: element x ++ r.
Proof. unfold memberText. cbn [fst snd]. rewrite <- app_assoc. reflexivity. Qed.

Lemma tag_faithful (v : JsValue) : faithful v = true -> tag v <> 0.
Proof. destruct v as [| |[]| | | | | |]; cbn; intros H; congruence. Qed.

Lemma delimited_tailBefore (parts : list (list ascii)) (c : ascii) (r : list ascii) :
  delimited (c :: r) = true -> delimited (tailBefore parts (c :: r)) = true.
Proof. destruct parts; [trivial | reflexivity]. Qed.

Lemma elements_inj (l1 : list JsValue) :
  Forall determined l1 -> forallb faithful l1 = true ->
  forall l2 r1 r2,
    forallb faithful l2 = true ->
    tailBefore (List.map element l1) ("]"%char :: r1)
    = tailBefore (List.map element l2) ("]"%char :: r2) ->
    l1 = l2 /\ r1 = r2.
Proof.
  induction 1 as [|x1 l1 Hx _ IH]; intros F1 [|x2 l2] r1 r2 F2 H;
    cbn [List.map tailBefore forallb] in *; try discriminate H.
  - injection H as ->. auto.
  - apply andb_prop in F1 as [Fx1 F1]. apply andb_prop in F2 as [Fx2 F2].
    injection H as H.
    apply (Hx Fx1 x2 _ _ Fx2) in H as [-> H];
      [|apply delimited_tailBefore; reflexivity..].
    destruct (IH F1 l2 r1 r2 F2 H) as [-> ->]. auto.
Qed.

Lemma members_inj (l1 : list (string * JsValue)) :
  Forall (fun kx => determined (snd kx)) l1 ->
  forallb (fun kx => faithful (snd kx)) l1 = true ->
  forall l2 r1 r2,
    forallb (fun kx => faithful (snd kx)) l2 = true ->
    tailBefore (List.map memberText l1) ("}"%char :: r1)
    = tailBefore (List.map memberText l2) ("}"%char :: r2) ->
    l1 = l2 /\ r1 = r2.
Proof.
  induction 1 as [|[k1 x1] l1 Hx _ IH]; intros F1 [|[k2 x2] l2] r1 r2 F2 H;
    cbn [List.map tailBefore forallb fst snd] in *; try discriminate H.
  - injection H as ->. auto.
  - apply andb_prop in F1 as [Fx1 F1]. apply andb_prop in F2 as [Fx2 F2].
    apply cons_eq_inv in H. rewrite !memberText_app in H.
    apply quote_inj in H as [-> H]. apply cons_eq_inv in H.
    apply (Hx Fx1 x2 _ _ Fx2) in H as [-> H];
      [|apply delimited_tailBefore; reflexivity..].
    destruct (IH F1 l2 r1 r2 F2 H) as [-> ->]. auto.
Qed.

Lemma bracketed (a b : ascii) (l r : list ascii) :
  (a :: l ++ [b]) ++ r = a :: l ++ b :: r.
Proof. cbn [app]. rewrite <- app_assoc. reflexivity. Qed.

Theorem element_determined (v : JsValue) : determined v.
Proof.
  induction v as [| |b1|n1| | |s1|l1 IH|l1 IH] using JsValue_ind;
    intros F1 v2 r1 r2 F2 D1 D2 H; try discriminate F1.
  all: pose proof (f_equal kind H) as K;
       rewrite (kind_element _ r1 F1), (kind_element _ r2 F2) in K.
  all: destruct v2 as [| |b2|n2| | |s2|l2|l2]; try discriminate F2;
       try (destruct b1; discriminate K); try (destruct b2; discriminate K);
       try discriminate K.
  - apply app_inv_head in H. auto.
  - destruct b1, b2; try discriminate K; apply app_inv_head in H; auto.
  - change (numberToString n1 ++ r1 = numberToString n2 ++ r2) in H.
    apply numberToString_prefix in H as [-> ->]; auto.
  - change (quote s1 ++ r1 = quote s2 ++ r2) in H.
    apply quote_inj in H as [-> ->]. auto.
  - rewrite !element_arr, !bracketed, !commaJoin_app in H. apply cons_eq_inv in H.
    cbn [faithful] in F1, F2.
    destruct l1 as [|x1 l1], l2 as [|x2 l2]; cbn [List.map] in H.
    + injection H as ->. auto.
    + apply andb_prop in F2 as [Fx _]. apply (f_equal kind) in H.
      rewrite (kind_element _ _ Fx) in H. symmetry in H.
      apply tag_faithful in H; [contradiction|exact Fx].
    + apply andb_prop in F1 as [Fx _]. apply (f_equal kind) in H.
      rewrite (kind_element _ _ Fx) in H.
      apply tag_faithful in H; [contradiction|exact Fx].
    + cbn [forallb] in F1, F2.
      apply andb_prop in F1 as [Fx1 F1]. apply andb_prop in F2 as [Fx2 F2].
      apply List.Forall_cons_iff in IH as [Hx IH].
      apply (Hx Fx1 x2 _ _ Fx2) in H as [-> H];
        [|apply delimited_tailBefore; reflexivity..].
      destruct (elements_inj l1 IH F1 l2 r1 r2 F2 H) as [-> ->]. auto.
  - rewrite !element_obj, !bracketed in H. cbn [faithful] in F1, F2.
    rewrite (members_faithful _ F1), (members_faithful _ F2), !commaJoin_app in H.
    apply cons_eq_inv in H.
    destruct l1 as [|[k1 x1] l1], l2 as [|[k2 x2] l2]; cbn [List.map] in H;
      try discriminate H.
    + injection H as ->. auto.
    + cbn [forallb snd] in F1, F2.
      apply andb_prop in F1 as [Fx1 F1]. apply andb_prop in F2 as [Fx2 F2].
      apply List.Forall_cons_iff in IH as [Hx IH]. cbn [snd] in Hx.
      rewrite !memberText_app in H.
      apply quote_inj in H as [-> H]. apply cons_eq_inv in H.
      apply (Hx Fx1 x2 _ _ Fx2) in H as [-> H];
        [|apply delimited_tailBefore; reflexivity..].
      destruct (members_inj l1 IH F1 l2 r1 r2 F2 H) as [-> ->]. auto.
Qed.

Lemma serialize_inj (a b : JsValue) :
  comparable a = true -> comparable b = true ->
  serialize a = serialize b -> a = b.
Proof.
  unfold comparable. intros Ca Cb H.
  destruct (isUndefined a) eqn:Ua; [destruct a; try discriminate Ua|];
    (destruct (isUndefined b) eqn:Ub; [destruct b; try discriminate Ub|]);
    cbn [orb] in Ca, Cb.
  - reflexivity.
  - rewrite (serialize_faithful _ Cb) in H. discriminate H.
  - rewrite (serialize_faithful _ Ca) in H. discriminate H.
  - rewrite (serialize_faithful _ Ca), (serialize_faithful _ Cb) in H.
    injection H as H.
    destruct (element_determined a Ca b [] [] Cb eq_refl eq_refl) as [E _]; [|exact E].
    rewrite !app_nil_r. exact H.
Qed.

Theorem stringify_inj (a b : JsValue) :
  comparable a = true -> comparable b = true ->
  stringify a = stringify b -> a = b.
Proof.
  intros Ca Cb H. apply serialize_inj; [assumption..|].
  unfold stringify in H.
  destruct (serialize a) as [x|], (serialize b) as [y|]; cbn in H;
    try discriminate H; [|reflexivity].
  injection H as H. apply (f_equal list_ascii_of_string) in H.
  rewrite !list_ascii_of_string_of_list_ascii in H. congruence.
Qed.

End JSONFacts.


Section GroupActions.

Import usePrivilegedSettingsGroupActions.

Variable ctx : PrivilegedSettingsContextValue.
Variable t : string -> option JsValue -> string.
Variable loadLanguage : JsValue -> Outcome.
Variable user : option IUser.
Variable groupId : GroupId.

Local Abbreviation batch := (changesOf (groupEditableSettings ctx groupId)).

Lemma changesOf_spec (l : list IEditableSetting) (c : Change) :
    In c (changesOf l) <->
    exists s, In s l /\ changed s = true /\
      c = {| change_id := _id s; change_value := value s; change_editor := editor s |}.
Proof.
    unfold changesOf. rewrite in_map_iff. split.
    - intros (s & <- & Hs). apply filter_In in Hs as [Hin Hch]. eauto.
    - intros (s & Hin & Hch & ->). exists s. split; [reflexivity|].
      apply filter_In. auto.
Qed.

(** The trace of [save], case by case. *)
Lemma save_trace :
    trace (save ctx t loadLanguage user groupId) =
    match batch with
    | [] => []
    | _ :: _ =>
        Dispatch batch ::
        match dispatch ctx batch with
        | Rejected e => [DispatchToastMessage type_error e]
        | Resolved =>
            if List.existsb isLanguage batch then
              let lng := jsOr (jsOr (userLanguage user) (languageValue batch)) (JStr "en") in
              LoadLanguage lng ::
              match loadLanguage lng with
              | Rejected e => [DispatchToastMessage type_error e]
              | Resolved =>
                  [DispatchToastMessage type_success (JStr (t "Settings_updated" (Some lng)))]
              end
            else [DispatchToastMessage type_success (JStr (t "Settings_updated" None))]
        end
    end.
Proof.
    unfold save.
    destruct batch as [|c cs] eqn:Hb; [reflexivity|].
    cbn [length Nat.eqb].
    destruct (dispatch ctx (c :: cs)); [|reflexivity].
    destruct (List.existsb isLanguage (c :: cs)); [|reflexivity].
    cbv zeta.
    destruct (loadLanguage _); reflexivity.
Qed.

Lemma dispatchCalls_save :
  dispatchCalls (trace (save ctx t loadLanguage user groupId)) =
  match batch with [] => [] | _ :: _ => [batch] end.
Proof.
  rewrite save_trace.
  destruct batch as [|c cs]; [reflexivity|].
  destruct (dispatch ctx _); [|reflexivity].
  destruct (List.existsb _ _); [|reflexivity].
  cbv zeta. destruct (loadLanguage _); reflexivity.
Qed.

(** C2: [save] gives [dispatch], in one call, exactly the changed members of
    the group, each projected to its [_id], [value] and [editor]; when no
    member is changed it calls nothing at all. *)
Theorem save_dispatches_changed_members :
  match batch with
  | [] => trace (save ctx t loadLanguage user groupId) = []
  | _ :: _ => dispatchCalls (trace (save ctx t loadLanguage user groupId)) = [batch]
  end
  /\ batch =
     List.map (fun s : IEditableSetting =>
                 {| change_id := _id s; change_value := value s; change_editor := editor s |})
              (List.filter (fun s : IEditableSetting => changed s)
                 (match getSettingsGroup ctx groupId with
                  | Some g => GroupDescriptor.editableSettings g
                  | None => []
                  end))
  /\ forall c, In c batch <->
       exists s, In s (groupEditableSettings ctx groupId) /\ changed s = true /\
         c = {| change_id := _id s; change_value := value s; change_editor := editor s |}.
Proof.
  split; [|split].
  - pose proof save_trace as Ht. pose proof dispatchCalls_save as Hd.
    destruct batch; assumption.
  - reflexivity.
  - apply changesOf_spec.
Qed.

(** The notifications [save] makes, of either type. *)
Lemma toastCalls_save :
  length (toastCalls type_success (trace (save ctx t loadLanguage user groupId)))
  + length (toastCalls type_error (trace (save ctx t loadLanguage user groupId)))
  = match batch with [] => 0 | _ :: _ => 1 end.
Proof.
  rewrite save_trace.
  destruct batch as [|c cs]; [reflexivity|].
  destruct (dispatch ctx _); [|reflexivity].
  destruct (List.existsb _ _); [|reflexivity].
  cbv zeta. destruct (loadLanguage _); reflexivity.
Qed.

(** C6, amended: a [save] with at least one changed member reports exactly
    one outcome, a success or a failure and never both; a [save] with no
    changed member reports nothing. *)
Theorem save_reports_once_when_changed :
  length (toastCalls type_success (trace (save ctx t loadLanguage user groupId)))
  + length (toastCalls type_error (trace (save ctx t loadLanguage user groupId)))
  = (if Nat.eqb (length batch) 0 then 0 else 1)%nat.
Proof.
  rewrite toastCalls_save. destruct batch; reflexivity.
Qed.





(** C4: [cancel] makes one call, to [dispatchToEditableSettings] and never to
    [dispatch]; the array holds one entry per changed member, in order: the
    persisted [value] and [editor] with [changed: false], or the empty object
    when the persisted record is missing; nothing is thrown. *)
Theorem cancel_restores_changed_members :
  exists patches,
    cancel ctx groupId = ([DispatchToEditableSettings patches], inr tt)
    /\ dispatchCalls (trace (cancel ctx groupId)) = []
    /\ Forall2
         (fun (s : IEditableSetting) (p : Patch) =>
            match querySetting ctx (_id s) with
            | Some r =>
                p = {| patch_id := Some (_id r);
                       patch_value := Some (value r);
                       patch_editor := Some (editor r);
                       patch_changed := Some false |}
            | None =>
                p = {| patch_id := None; patch_value := None;
                       patch_editor := None; patch_changed := None |}
            end)
         (List.filter (fun s : IEditableSetting => changed s)
            (groupEditableSettings ctx groupId))
         patches.
Proof.
  eexists. split; [reflexivity|]. split; [reflexivity|].
  induction (List.filter _ _) as [|s l IH]; cbn [List.map]; constructor.
  - unfold restore. destruct (querySetting ctx (_id s)); reflexivity.
  - exact IH.
Qed.

End GroupActions.

(** *** Comparing by text and comparing deeply *)

Lemma deepEqual_eq (a b : JsValue) : deepEqual a b = true <-> a = b.
Proof.
  revert b.
  induction a as [| |x|x| |x|x|xs IH|ps IH] using JsValue_ind;
    intros [| |y|y| |y|y|ys|qs]; cbn [deepEqual];
    try (split; [discriminate | intros [=]]); try tauto.
  - rewrite Bool.eqb_true_iff. split; [intros ->; reflexivity | intros [=]; assumption].
  - rewrite Z.eqb_eq. split; [intros ->; reflexivity | intros [=]; assumption].
  - rewrite Bool.eqb_true_iff. split; [intros ->; reflexivity | intros [=]; assumption].
  - rewrite String.eqb_eq. split; [intros ->; reflexivity | intros [=]; assumption].
  - enough (E : forall ys',
               (fix each (xs ys : list JsValue) : bool :=
                  match xs, ys with
                  | [], [] => true
                  | x :: xs', y :: ys' => deepEqual x y && each xs' ys'
                  | _, _ => false
                  end) xs ys' = true <-> xs = ys').
    { rewrite E. split; [intros ->; reflexivity | intros [=]; assumption]. }
    induction IH as [|x xs Hx _ IHxs]; intros [|y ys'];
      try (split; [discriminate | intros [=]]); try tauto.
    rewrite andb_true_iff, Hx, IHxs.
    split; [intros [-> ->]; reflexivity | intros [=]; auto].
  - enough (E : forall qs',
               (fix each (ps qs : list (string * JsValue)) : bool :=
                  match ps, qs with
                  | [], [] => true
                  | p :: ps', q :: qs' =>
                      String.eqb (fst p) (fst q) && deepEqual (snd p) (snd q) && each ps' qs'
                  | _, _ => false
                  end) ps qs' = true <-> ps = qs').
    { rewrite E. split; [intros ->; reflexivity | intros [=]; assumption]. }
    induction IH as [|[k x] ps Hx _ IHps]; intros [|[k' y] qs'];
      try (split; [discriminate | intros [=]]); try tauto.
    cbn [fst snd] in *.
    rewrite !andb_true_iff, String.eqb_eq, Hx, IHps.
    split; [intros [[-> ->] ->]; reflexivity | intros [=]; auto].
Qed.

Lemma stringifyDiffers_spec (a b : JsValue) :
  stringifyDiffers a b = true <-> JSON.stringify a <> JSON.stringify b.
Proof.
  unfold stringifyDiffers. rewrite negb_true_iff, bool_decide_eq_false. reflexivity.
Qed.

Lemma stringifyDiffers_same (a : JsValue) : stringifyDiffers a a = false.
Proof.
  unfold stringifyDiffers. rewrite bool_decide_eq_true_2; reflexivity.
Qed.

(** On comparable values the comparison by text is the negation of deep
    equality. *)
Lemma stringifyDiffers_deepEqual (a b : JsValue) :
  JSON.comparable a = true -> JSON.comparable b = true ->
  stringifyDiffers a b = negb (deepEqual a b).
Proof.
  intros Ca Cb. destruct (deepEqual a b) eqn:E.
  - apply deepEqual_eq in E as ->. apply stringifyDiffers_same.
  - cbn. apply stringifyDiffers_spec. intros H.
    apply (JSONFacts.stringify_inj a b Ca Cb) in H.
    apply deepEqual_eq in H. congruence.
Qed.

(** The flag the facades compute from two comparisons. *)
Lemma differs_or_spec (a a' b b' : JsValue) :
  stringifyDiffers a a' || stringifyDiffers b b' = true <->
  JSON.stringify a <> JSON.stringify a' \/ JSON.stringify b <> JSON.stringify b'.
Proof. rewrite orb_true_iff, !stringifyDiffers_spec. reflexivity. Qed.

Lemma differs_or_deepEqual (a a' b b' : JsValue) :
  JSON.comparable a = true -> JSON.comparable a' = true ->
  JSON.comparable b = true -> JSON.comparable b' = true ->
  stringifyDiffers a a' || stringifyDiffers b b' = negb (deepEqual a a' && deepEqual b b').
Proof.
  intros Ca Ca' Cb Cb'.
  rewrite (stringifyDiffers_deepEqual a a' Ca Ca'), (stringifyDiffers_deepEqual b b' Cb Cb').
  destruct (deepEqual a a'), (deepEqual b b'); reflexivity.
Qed.

(** *** The overlay *)

Section OverlayFacts.

Import EditableOverlay.

Variable persisted : gmap SettingId ISetting.
Variable isDisabled : ISetting -> bool.

Lemma merge_twice (record : ISetting) (e : IEditableSetting) (p : Patch) :
  merge record (merge record e p) p = merge record e p.
Proof.
  unfold merge. cbn.
  destruct (patch_value p), (patch_editor p); reflexivity.
Qed.

(** A patch applied a second time changes nothing. *)
Lemma applyPatch_twice (overlay : gmap SettingId IEditableSetting) (p : Patch) :
  applyPatch persisted isDisabled (applyPatch persisted isDisabled overlay p) p
  = applyPatch persisted isDisabled overlay p.
Proof.
  unfold applyPatch. destruct (patch_id p) as [id|]; [|reflexivity].
  destruct (persisted !! id) as [record|]; [|reflexivity].
  destruct (get persisted isDisabled overlay id) as [e|] eqn:He; [|rewrite He; reflexivity].
  unfold get at 1. rewrite lookup_insert_eq.
  rewrite merge_twice. apply insert_insert_eq.
Qed.

(** The empty object names no setting: the overlay stays as it is. *)
Lemma applyPatch_empty (overlay : gmap SettingId IEditableSetting) :
  applyPatch persisted isDisabled overlay emptyPatch = overlay.
Proof. reflexivity. Qed.

End OverlayFacts.

(** *** usePrivilegedSettingsSectionActions *)

Section SectionActions.

Import usePrivilegedSettingsSectionActions.

Variable ctx : PrivilegedSettingsContextValue.
Variable groupId : GroupId.
Variable sectionName : SectionName.

Lemma toPackage_ids (l : list IEditableSetting) :
  List.map patch_id (List.map toPackage l) = List.map (fun s : IEditableSetting => Some (_id s)) l.
Proof. rewrite List.map_map. reflexivity. Qed.

(** C8: the section-level [reset] gives [dispatchToEditableSettings] one
    patch per enabled member of the section, in order, that sets [value] to
    [packageValue] and [editor] to [packageEditor]; a disabled member gets no
    patch. *)
Theorem section_reset_patches_enabled_members (sd : SectionDescriptor.t) :
  getSettingsSection ctx groupId sectionName = Some sd ->
  exists patches,
    reset ctx groupId sectionName = ([DispatchToEditableSettings patches], inr tt)
    /\ Forall2
         (fun (s : IEditableSetting) (p : Patch) =>
            patch_id p = Some (_id s)
            /\ patch_value p = Some (packageValue s)
            /\ patch_editor p = Some (packageEditor s))
         (List.filter (fun s : IEditableSetting => negb (disabled s))
            (SectionDescriptor.editableSettings sd))
         patches
    /\ forall s : IEditableSetting,
         In s (SectionDescriptor.editableSettings sd) ->
         disabled s = true ->
         (forall s' : IEditableSetting,
            In s' (SectionDescriptor.editableSettings sd) ->
            disabled s' = false -> _id s' <> _id s) ->
         ~ In (Some (_id s)) (List.map patch_id patches).
Proof.
  intros Hsd. unfold reset. rewrite Hsd.
  eexists. split; [reflexivity|]. split.
  - induction (List.filter _ _) as [|s l IH]; cbn [List.map]; constructor; auto.
  - intros s Hin Hdis Hother Hp. rewrite toPackage_ids in Hp.
    apply in_map_iff in Hp as (s' & [= Hid] & Hs').
    apply filter_In in Hs' as [Hin' Hen]. apply negb_true_iff in Hen.
    exact (Hother s' Hin' Hen Hid).
Qed.

End SectionActions.

(** *** usePrivilegedSettingActions *)

Section SettingActions.

Import usePrivilegedSettingActions.

Variable ctx : PrivilegedSettingsContextValue.
Variable id : SettingId.

Lemma update_trace (p : ISetting) (v e : JsValue) :
  querySetting ctx id = Some p ->
  update ctx id v e =
  ([DispatchToEditableSettings
      [{| patch_id := Some id;
          patch_value := spreadDefined v;
          patch_editor := spreadDefined e;
          patch_changed :=
            Some (stringifyDiffers (value p) v || stringifyDiffers (editor p) e) |}]],
   inr tt).
Proof. intros Hq. unfold update. rewrite Hq. reflexivity. Qed.

Lemma reset_trace (p : ISetting) :
  querySetting ctx id = Some p ->
  reset ctx id =
  ([DispatchToEditableSettings
      [{| patch_id := Some (_id p);
          patch_value := Some (packageValue p);
          patch_editor := Some (packageEditor p);
          patch_changed :=
            Some (stringifyDiffers (packageValue p) (value p)
                  || stringifyDiffers (packageEditor p) (editor p)) |}]],
   inr tt).
Proof. intros Hq. unfold reset. rewrite Hq. reflexivity. Qed.

Lemma dirtyInvariant_intro (record : ISetting) (s : IEditableSetting) :
  changed s = stringifyDiffers (value record) (value s)
              || stringifyDiffers (editor record) (editor s) ->
  dirtyInvariant record s.
Proof.
  intros Hc. split.
  - rewrite Hc, differs_or_spec. split; (intros [H|H]; [left|right]; congruence).
  - intros Cv Ce Crv Cre. rewrite Hc, (differs_or_deepEqual _ _ _ _ Crv Cv Cre Ce).
    f_equal. f_equal; apply eq_true_iff_eq; rewrite !deepEqual_eq; split; congruence.
Qed.

Lemma spreadDefined_merge (cur x : JsValue) :
  (isUndefined x = true -> cur = JUndefined) ->
  default cur (spreadDefined x) = x.
Proof.
  unfold spreadDefined. destruct x; cbn; try reflexivity.
  intros H. apply H. reflexivity.
Qed.

(** C1, amended: once the patch emitted by [update] or by the setting-level
    [reset] is merged into the setting's entry, the entry's [changed] flag
    is true exactly when the [JSON.stringify] text of its value or of its
    editor differs from the text of the persisted record's, which for
    comparable values (no [undefined], [NaN] or infinity inside them) is
    exactly when its (value, editor) pair is not deeply equal to the
    persisted pair.  For [update] this is stated when every field the call
    leaves out is [undefined] in the entry. *)
Theorem changed_flag_compares_json_text (p : ISetting) (cur : IEditableSetting) :
  querySetting ctx id = Some p ->
  (forall v e : JsValue,
     (isUndefined v = true -> value cur = JUndefined) ->
     (isUndefined e = true -> editor cur = JUndefined) ->
     exists patch : Patch,
       trace (update ctx id v e) = [DispatchToEditableSettings [patch]]
       /\ value (EditableOverlay.merge p cur patch) = v
       /\ editor (EditableOverlay.merge p cur patch) = e
       /\ dirtyInvariant p (EditableOverlay.merge p cur patch))
  /\ (exists patch : Patch,
       trace (reset ctx id) = [DispatchToEditableSettings [patch]]
       /\ value (EditableOverlay.merge p cur patch) = packageValue p
       /\ editor (EditableOverlay.merge p cur patch) = packageEditor p
       /\ dirtyInvariant p (EditableOverlay.merge p cur patch)).
Proof.
  intros Hq. split.
  - intros v e Hv He. eexists. rewrite (update_trace p v e Hq).
    split; [reflexivity|].
    assert (Ev : value (EditableOverlay.merge p cur
                          {| patch_id := Some id;
                             patch_value := spreadDefined v;
                             patch_editor := spreadDefined e;
                             patch_changed :=
                               Some (stringifyDiffers (value p) v
                                     || stringifyDiffers (editor p) e) |}) = v)
      by exact (spreadDefined_merge _ _ Hv).
    assert (Ee : editor (EditableOverlay.merge p cur
                           {| patch_id := Some id;
                              patch_value := spreadDefined v;
                              patch_editor := spreadDefined e;
                              patch_changed :=
                                Some (stringifyDiffers (value p) v
                                      || stringifyDiffers (editor p) e) |}) = e)
      by exact (spreadDefined_merge _ _ He).
    split; [exact Ev|]. split; [exact Ee|].
    apply dirtyInvariant_intro. rewrite Ev, Ee. reflexivity.
  - eexists. rewrite (reset_trace p Hq).
    split; [reflexivity|]. split; [reflexivity|]. split; [reflexivity|].
    apply dirtyInvariant_intro. cbn.
    unfold stringifyDiffers.
    rewrite (bool_decide_ext _ _ (symmetry_iff eq (JSON.stringify (packageValue p))
                                    (JSON.stringify (value p)))).
    rewrite (bool_decide_ext _ _ (symmetry_iff eq (JSON.stringify (packageEditor p))
                                    (JSON.stringify (editor p)))).
    reflexivity.
Qed.


(** C7, amended: a second setting-level [reset] emits the patch of the first
    and leaves the overlay as the first left it; the [changed] flag is false
    exactly when the package defaults and the persisted value and editor
    have the same [JSON.stringify] text, which for comparable values is
    exactly when they are deeply equal, the order of properties included. *)
Theorem setting_reset_idempotent (p : ISetting) :
  querySetting ctx id = Some p ->
  exists b : bool,
    trace (reset ctx id) =
      [DispatchToEditableSettings
         [{| patch_id := Some (_id p);
             patch_value := Some (packageValue p);
             patch_editor := Some (packageEditor p);
             patch_changed := Some b |}]]
    /\ trace (reset ctx id;; reset ctx id) = trace (reset ctx id) ++ trace (reset ctx id)
    /\ (forall (persisted : gmap SettingId ISetting) (isDisabled : ISetting -> bool)
               (overlay : gmap SettingId IEditableSetting),
          EditableOverlay.run persisted isDisabled overlay
            (trace (reset ctx id;; reset ctx id))
          = EditableOverlay.run persisted isDisabled overlay (trace (reset ctx id)))
    /\ (b = false <->
        JSON.stringify (packageValue p) = JSON.stringify (value p)
        /\ JSON.stringify (packageEditor p) = JSON.stringify (editor p))
    /\ (JSON.comparable (packageValue p) = true ->
        JSON.comparable (packageEditor p) = true ->
        JSON.comparable (value p) = true -> JSON.comparable (editor p) = true ->
        (b = false <->
         deepEqual (packageValue p) (value p) && deepEqual (packageEditor p) (editor p)
         = true)).
Proof.
  intros Hq. eexists. rewrite (reset_trace p Hq).
  split; [reflexivity|]. split; [reflexivity|]. split; [|split].
  - intros persisted isDisabled overlay.
    exact (applyPatch_twice persisted isDisabled overlay _).
  - rewrite orb_false_iff. unfold stringifyDiffers.
    rewrite !negb_false_iff, !bool_decide_eq_true. reflexivity.
  - intros C1 C2 C3 C4. rewrite (differs_or_deepEqual _ _ _ _ C1 C3 C2 C4).
    apply negb_false_iff.
Qed.

End SettingActions.


(** ** Instances and examples *)

Section Instances.

Import usePrivilegedSettingsGroupActions.

Example stringify_array :
  JSON.stringify (JArr [JNum 1; JNaN; JUndefined; JBool true; JNum (-20); JArr []; JObj []])
  = Some "[1,null,null,true,-20,[],{}]"%string.
Proof. reflexivity. Qed.

Example stringify_undefined : JSON.stringify JUndefined = None.
Proof. reflexivity. Qed.

(** The order of the properties of an object shows in its text. *)
Example stringify_property_order :
  JSON.stringify (JObj [("a", JNum 1); ("b", JNum 2)])
  <> JSON.stringify (JObj [("b", JNum 2); ("a", JNum 1)]).
Proof. discriminate. Qed.

Lemma save_dispatches_changed_members_witness :
  dispatchCalls (trace (save Sample.ctx Sample.t Sample.loaded None "General"))
  = [[Sample.languageChange;
      {| change_id := "theme-color-primary"; change_value := JStr "#ffffff";
         change_editor := JStr "color" |};
      {| change_id := "Removed_Setting"; change_value := JNum 1;
         change_editor := JUndefined |}]]
  /\ trace (save Sample.ctxUnedited Sample.t Sample.loaded None "General") = [].
Proof.
  split.
  - exact (proj1 (save_dispatches_changed_members
                    Sample.ctx Sample.t Sample.loaded None "General")).
  - exact (proj1 (save_dispatches_changed_members
                    Sample.ctxUnedited Sample.t Sample.loaded None "General")).
Defined.

(** C6 as stated fails: a [save] on a group with nothing under edit reports
    no outcome at all. *)
Lemma save_without_changes_reports_nothing :
  trace (save Sample.ctxUnedited Sample.t Sample.loaded None "General") = []
  /\ (length (toastCalls type_success
                (trace (save Sample.ctxUnedited Sample.t Sample.loaded None "General")))
      + length (toastCalls type_error
                  (trace (save Sample.ctxUnedited Sample.t Sample.loaded None "General"))))%nat
     <> 1%nat.
Proof. split; [reflexivity | discriminate]. Qed.

Lemma save_reports_once_when_changed_witness :
  (length (toastCalls type_success
             (trace (save Sample.ctx Sample.t Sample.loaded None "General")))
   + length (toastCalls type_error
               (trace (save Sample.ctx Sample.t Sample.loaded None "General"))))%nat
  = 1%nat.
Proof.
  exact (save_reports_once_when_changed Sample.ctx Sample.t Sample.loaded None "General").
Defined.



Lemma cancel_restores_changed_members_witness :
  exists patches,
    cancel Sample.ctx "General" = ([DispatchToEditableSettings patches], inr tt)
    /\ patches =
       [{| patch_id := Some "Language"; patch_value := Some (JStr "en");
           patch_editor := Some JUndefined; patch_changed := Some false |};
        {| patch_id := Some "theme-color-primary"; patch_value := Some (JStr "#1d74f5");
           patch_editor := Some (JStr "color"); patch_changed := Some false |};
        emptyPatch].
Proof.
  destruct (cancel_restores_changed_members Sample.ctx "General") as (patches & Hc & _ & _).
  exists patches. split; [exact Hc|].
  injection Hc as <-. reflexivity.
Defined.

End Instances.

Section SettingInstances.

Import usePrivilegedSettingActions.

Lemma section_reset_patches_enabled_members_witness :
  (exists sd, getSettingsSection Sample.ctx "General" "" = Some sd)
  /\ exists patches,
       usePrivilegedSettingsSectionActions.reset Sample.ctx "General" ""
       = ([DispatchToEditableSettings patches], inr tt)
       /\ List.map patch_id patches
          = [Some "Language"; Some "Site_Name"; Some "Removed_Setting"]
       /\ ~ In (Some "theme-color-primary") (List.map patch_id patches).
Proof.
  split; [eexists; reflexivity|].
  destruct (section_reset_patches_enabled_members Sample.ctx "General" "" _ eq_refl)
    as (patches & Hr & _ & Hd).
  exists patches. split; [exact Hr|]. split.
  - injection Hr as <-. reflexivity.
  - apply (Hd Sample.colorEdited).
    + cbn. tauto.
    + reflexivity.
    + cbn. intros s' [<-|[<-|[<-|[<-|[]]]]]; cbn; congruence.
Defined.

Lemma changed_flag_compares_json_text_witness :
  querySetting Sample.ctx "Site_Name" = Some Sample.siteName
  /\ (isUndefined JUndefined = true -> editor Sample.siteNameUnedited = JUndefined)
  /\ exists patch : Patch,
       trace (update Sample.ctx "Site_Name" (JStr "Chat") JUndefined)
       = [DispatchToEditableSettings [patch]]
       /\ changed (EditableOverlay.merge Sample.siteName Sample.siteNameUnedited patch)
          = true
       /\ deepEqual
            (value (EditableOverlay.merge Sample.siteName Sample.siteNameUnedited patch))
            (value Sample.siteName)
          = false.
Proof.
  split; [reflexivity|]. split; [reflexivity|].
  destruct (changed_flag_compares_json_text Sample.ctx "Site_Name" Sample.siteName
              Sample.siteNameUnedited eq_refl) as [Hu _].
  destruct (Hu (JStr "Chat") JUndefined (fun H => False_ind _ (diff_false_true H))
               (fun _ => eq_refl))
    as (patch & Ht & Hv & He & _ & Hd).
  exists patch. split; [exact Ht|].
  rewrite (Hd ltac:(rewrite Hv; reflexivity) ltac:(rewrite He; reflexivity)
              eq_refl eq_refl).
  rewrite Hv, He. split; reflexivity.
Defined.

(** C1 as stated fails: updating the asset to an object that has one more
    property, holding [undefined], emits [changed: false]; the entry then
    holds a value that is not deeply equal to the persisted one and is
    flagged unchanged. *)
Lemma update_unequal_value_reported_unchanged :
  querySetting Sample.ctxAsset "Assets_logo" = Some Sample.asset
  /\ trace (update Sample.ctxAsset "Assets_logo" Sample.logoWithUndefinedUrl JUndefined)
     = [DispatchToEditableSettings
          [{| patch_id := Some "Assets_logo";
              patch_value := Some Sample.logoWithUndefinedUrl;
              patch_editor := None;
              patch_changed := Some false |}]]
  /\ EditableOverlay.merge Sample.asset (Sample.mkEditable Sample.asset false false)
       {| patch_id := Some "Assets_logo";
          patch_value := Some Sample.logoWithUndefinedUrl;
          patch_editor := None;
          patch_changed := Some false |}
     = Sample.mkEditable
         (Sample.mkSetting "Assets_logo" Sample.logoWithUndefinedUrl JUndefined
            Sample.logo JUndefined)
         false false
  /\ deepEqual Sample.logoWithUndefinedUrl (value Sample.asset) = false
  /\ Sample.logoWithUndefinedUrl <> value Sample.asset.
Proof.
  split; [reflexivity|]. split; [reflexivity|]. split; [reflexivity|].
  split; [reflexivity|]. discriminate.
Qed.



Lemma setting_reset_idempotent_witness :
  querySetting Sample.ctx "theme-color-primary" = Some Sample.color
  /\ trace (reset Sample.ctx "theme-color-primary")
     = [DispatchToEditableSettings
          [{| patch_id := Some "theme-color-primary";
              patch_value := Some (JStr "#175cc4");
              patch_editor := Some (JStr "color");
              patch_changed := Some true |}]]
  /\ forall (persisted : gmap SettingId ISetting) (isDisabled : ISetting -> bool)
            (overlay : gmap SettingId IEditableSetting),
       EditableOverlay.run persisted isDisabled overlay
         (trace (reset Sample.ctx "theme-color-primary";;
                 reset Sample.ctx "theme-color-primary"))
       = EditableOverlay.run persisted isDisabled overlay
           (trace (reset Sample.ctx "theme-color-primary")).
Proof.
  split; [reflexivity|].
  destruct (setting_reset_idempotent Sample.ctx "theme-color-primary" Sample.color eq_refl)
    as (b & Ht & _ & Ho & _ & _).
  split; [reflexivity | exact Ho].
Defined.

(** C7 as stated fails: the package default of the asset has a property
    holding [undefined] that the persisted value does not have; [reset]
    emits [changed: false], although the two are not deeply equal. *)
Lemma reset_unequal_default_reported_unchanged :
  querySetting Sample.ctxAssetPackaged "Assets_logo" = Some Sample.assetPackaged
  /\ trace (reset Sample.ctxAssetPackaged "Assets_logo")
     = [DispatchToEditableSettings
          [{| patch_id := Some "Assets_logo";
              patch_value := Some Sample.logoWithUndefinedUrl;
              patch_editor := Some JUndefined;
              patch_changed := Some false |}]]
  /\ deepEqual (packageValue Sample.assetPackaged) (value Sample.assetPackaged) = false
  /\ packageValue Sample.assetPackaged <> value Sample.assetPackaged.
Proof.
  split; [reflexivity|]. split; [reflexivity|]. split; [reflexivity|]. discriminate.
Qed.

(** What the amended C1 leaves out.  The section-level [reset] compares the
    value under edit, not the persisted one, with the package default: a
    setting already at its default is flagged unchanged although the
    persisted value differs, whereas the setting-level [reset] flags it. *)
Example section_reset_flag_ignores_persisted :
  editableCalls (trace (usePrivilegedSettingsSectionActions.reset
                          Sample.ctxRetention "General" ""))
  = [[{| patch_id := Some "RetentionPolicy_MaxAge";
         patch_value := Some (JNum 1);
         patch_editor := Some JUndefined;
         patch_changed := Some false |}]]
  /\ editableCalls (trace (reset Sample.ctxRetention "RetentionPolicy_MaxAge"))
     = [[{| patch_id := Some "RetentionPolicy_MaxAge";
            patch_value := Some (JNum 1);
            patch_editor := Some JUndefined;
            patch_changed := Some true |}]]
  /\ deepEqual (JNum 1) (value Sample.retention) = false.
Proof. repeat split. Qed.

(** An [update] that leaves out the editor compares [undefined] with the
    persisted editor: the colour set back to its persisted value is flagged
    changed. *)
Example update_without_editor_flags_changed :
  editableCalls (trace (update Sample.ctx "theme-color-primary" (JStr "#1d74f5") JUndefined))
  = [[{| patch_id := Some "theme-color-primary";
         patch_value := Some (JStr "#1d74f5");
         patch_editor := None;
         patch_changed := Some true |}]]
  /\ value Sample.color = JStr "#1d74f5".
Proof. repeat split. Qed.

End SettingInstances.

(** ** More on the facades *)

(** *** [save]: how it settles and what it reports *)

Section SaveOutcomes.

Import usePrivilegedSettingsGroupActions.

Variable ctx : PrivilegedSettingsContextValue.
Variable t : string -> option JsValue -> string.
Variable loadLanguage : JsValue -> Outcome.
Variable user : option IUser.
Variable groupId : GroupId.

Local Abbreviation batch := (changesOf (groupEditableSettings ctx groupId)).
Local Abbreviation lng :=
  (jsOr (jsOr (userLanguage user) (languageValue batch)) (JStr "en")).

Lemma save_settles :
  save ctx t loadLanguage user groupId
  = (trace (save ctx t loadLanguage user groupId), inr tt).
Proof.
  unfold save. destruct batch as [|c cs]; [reflexivity|].
  cbn [length Nat.eqb].
  destruct (dispatch ctx (c :: cs)); [|reflexivity].
  destruct (List.existsb isLanguage (c :: cs)); [|reflexivity].
  cbv zeta. destruct (loadLanguage _); reflexivity.
Qed.

(** X1: the promise of [save] never rejects: a rejection of [dispatch] or of
    [loadLanguage] is caught and reported, not passed on. *)
Theorem save_never_rejects :
  snd (save ctx t loadLanguage user groupId) = inr tt.
Proof. rewrite save_settles. reflexivity. Qed.

(** X2: [save] reports an error [e] exactly when some member is changed and
    either [dispatch] rejected with [e], or [dispatch] resolved, the batch
    holds [Language] and [loadLanguage] rejected with [e]. *)
Theorem save_error_report (e : JsValue) :
  In e (toastCalls type_error (trace (save ctx t loadLanguage user groupId))) <->
  batch <> []
  /\ (dispatch ctx batch = Rejected e
      \/ (dispatch ctx batch = Resolved
          /\ List.existsb isLanguage batch = true
          /\ loadLanguage lng = Rejected e)).
Proof.
  rewrite save_trace.
  destruct batch as [|c cs] eqn:Hb.
  { cbn. split; [tauto | intros [H _]; congruence]. }
  destruct (dispatch ctx (c :: cs)) as [|e'] eqn:Hd.
  - destruct (List.existsb isLanguage (c :: cs)) eqn:Hl.
    + cbv zeta. destruct (loadLanguage _) as [|e''] eqn:Hll; cbn.
      * split; [tauto|]. intros (_ & [H|(_ & _ & H)]); congruence.
      * split.
        -- intros [<-|[]]. split; [discriminate|]. right. auto.
        -- intros (_ & [H|(_ & _ & H)]); [discriminate|]. injection H as ->. auto.
    + cbn. split; [tauto|]. intros (_ & [H|(_ & H & _)]); congruence.
  - cbn. split.
    + intros [<-|[]]. split; [discriminate|]. left. reflexivity.
    + intros (_ & [H|(H & _)]); [|discriminate]. injection H as ->. auto.
Qed.

(** X3: [save] reports success exactly when some member is changed,
    [dispatch] resolved and, if the batch holds [Language], [loadLanguage]
    resolved too. *)
Theorem save_success_report :
  toastCalls type_success (trace (save ctx t loadLanguage user groupId)) <> [] <->
  batch <> []
  /\ dispatch ctx batch = Resolved
  /\ (List.existsb isLanguage batch = false \/ loadLanguage lng = Resolved).
Proof.
  rewrite save_trace.
  destruct batch as [|c cs] eqn:Hb.
  { cbn. split; [congruence | intros [H _]; congruence]. }
  destruct (dispatch ctx (c :: cs)) as [|e'] eqn:Hd.
  - destruct (List.existsb isLanguage (c :: cs)) eqn:Hl.
    + cbv zeta. destruct (loadLanguage _) as [|e''] eqn:Hll; cbn.
      * split; [intros _|discriminate]. split; [discriminate|]. auto.
      * split; [congruence|]. intros (_ & _ & [H|H]); congruence.
    + cbn. split; [intros _|discriminate]. split; [discriminate|]. auto.
  - cbn. split; [congruence|]. intros (_ & H & _). discriminate.
Qed.

(** X4: [loadLanguage] is called exactly when [dispatch] resolved on a batch
    that holds [Language]. *)
Theorem save_reloads_only_after_language_dispatch :
  loadLanguageCalls (trace (save ctx t loadLanguage user groupId)) <> [] <->
  dispatch ctx batch = Resolved /\ List.existsb isLanguage batch = true.
Proof.
  rewrite save_trace.
  destruct batch as [|c cs] eqn:Hb.
  { cbn. split; [congruence | intros [_ H]; discriminate]. }
  destruct (dispatch ctx (c :: cs)) as [|e'] eqn:Hd.
  - destruct (List.existsb isLanguage (c :: cs)) eqn:Hl.
    + cbv zeta. destruct (loadLanguage _); cbn; split; auto; discriminate.
    + cbn. split; [congruence|]. intros [_ H]. discriminate.
  - cbn. split; [congruence|]. intros [H _]. discriminate.
Qed.

(** X5: when [dispatch] resolves on a batch without [Language], [save] makes
    two calls: [dispatch], then a success notification whose message is
    translated without a [lng] option. *)
Theorem save_plain_success :
  batch <> [] ->
  dispatch ctx batch = Resolved ->
  List.existsb isLanguage batch = false ->
  save ctx t loadLanguage user groupId
  = ([Dispatch batch;
      DispatchToastMessage type_success (JStr (t "Settings_updated" None))],
     inr tt).
Proof.
  intros Hn Hd Hl. rewrite save_settles, save_trace.
  destruct batch as [|c cs]; [contradiction|].
  rewrite Hd, Hl. reflexivity.
Qed.

Lemma jsOr_truthy (a b : JsValue) : toBoolean b = true -> toBoolean (jsOr a b) = true.
Proof. unfold jsOr. intros H. destruct (toBoolean a) eqn:Ha; assumption. Qed.

(** X6: whatever the user's language and the dispatched value are, the
    language given to [loadLanguage] is truthy: never [undefined], [null] or
    the empty string. *)
Theorem save_loads_truthy_language :
  Forall (fun l => toBoolean l = true)
         (loadLanguageCalls (trace (save ctx t loadLanguage user groupId))).
Proof.
  rewrite save_trace.
  destruct batch as [|c cs]; [constructor|].
  destruct (dispatch ctx (c :: cs)); [|constructor].
  destruct (List.existsb isLanguage (c :: cs)); [|constructor].
  cbv zeta.
  assert (Ht : toBoolean (jsOr (jsOr (userLanguage user) (languageValue (c :: cs)))
                               (JStr "en")) = true)
    by (apply jsOr_truthy; reflexivity).
  destruct (loadLanguage _); cbn; repeat constructor; exact Ht.
Qed.

End SaveOutcomes.

(** *** Which collaborator each facade calls *)

Section Collaborators.

Variable ctx : PrivilegedSettingsContextValue.
Variable t : string -> option JsValue -> string.
Variable loadLanguage : JsValue -> Outcome.
Variable user : option IUser.
Variable groupId : GroupId.
Variable sectionName : SectionName.
Variable id : SettingId.

Lemma overlayOnly_nil : overlayOnly [].
Proof. repeat split. cbn. lia. Qed.

Lemma overlayOnly_call (patches : list Patch) :
  overlayOnly [DispatchToEditableSettings patches].
Proof. repeat split. cbn. lia. Qed.

(** X7: [save] never calls [dispatchToEditableSettings]; [cancel], the
    section-level [reset], [update] and the setting-level [reset] call
    nothing else, and call it at most once. *)
Theorem facades_keep_to_their_collaborators :
  editableCalls (trace (usePrivilegedSettingsGroupActions.save
                          ctx t loadLanguage user groupId)) = []
  /\ overlayOnly (trace (usePrivilegedSettingsGroupActions.cancel ctx groupId))
  /\ overlayOnly (trace (usePrivilegedSettingsSectionActions.reset ctx groupId sectionName))
  /\ (forall v e, overlayOnly (trace (usePrivilegedSettingActions.update ctx id v e)))
  /\ overlayOnly (trace (usePrivilegedSettingActions.reset ctx id)).
Proof.
  split; [|split; [|split; [|split]]].
  - rewrite save_trace.
    destruct (usePrivilegedSettingsGroupActions.changesOf _) as [|c cs]; [reflexivity|].
    destruct (dispatch ctx _); [|reflexivity].
    destruct (List.existsb _ _); [|reflexivity].
    cbv zeta. destruct (loadLanguage _); reflexivity.
  - apply overlayOnly_call.
  - unfold usePrivilegedSettingsSectionActions.reset.
    destruct (getSettingsSection ctx groupId sectionName);
      [apply overlayOnly_call | apply overlayOnly_nil].
  - intros v e. unfold usePrivilegedSettingActions.update.
    destruct (querySetting ctx id); [apply overlayOnly_call | apply overlayOnly_nil].
  - unfold usePrivilegedSettingActions.reset.
    destruct (querySetting ctx id); [apply overlayOnly_call | apply overlayOnly_nil].
Qed.

Lemma flagged_map {A : Type} (f : A -> Patch) (l : list A) :
  (forall x, flagged (f x)) -> Forall flagged (List.map f l).
Proof. intros H. induction l; cbn; constructor; auto. Qed.

(** X8: every patch a facade emits either names a setting and gives its
    [changed] flag, so that the overlay never has to recompute the flag, or
    is the empty object. *)
Theorem facades_emit_flagged_patches :
  Forall (Forall flagged)
    (editableCalls (trace (usePrivilegedSettingsGroupActions.cancel ctx groupId)))
  /\ Forall (Forall flagged)
       (editableCalls
          (trace (usePrivilegedSettingsSectionActions.reset ctx groupId sectionName)))
  /\ (forall v e,
        Forall (Forall flagged)
          (editableCalls (trace (usePrivilegedSettingActions.update ctx id v e))))
  /\ Forall (Forall flagged)
       (editableCalls (trace (usePrivilegedSettingActions.reset ctx id))).
Proof.
  split; [|split; [|split]].
  - cbn. repeat constructor. apply flagged_map. intros s.
    unfold usePrivilegedSettingsGroupActions.restore, flagged.
    destruct (querySetting ctx (_id s)); cbn; [discriminate | reflexivity].
  - unfold usePrivilegedSettingsSectionActions.reset.
    destruct (getSettingsSection ctx groupId sectionName); cbn; repeat constructor.
    apply flagged_map. intros s. unfold flagged. cbn. discriminate.
  - intros v e. unfold usePrivilegedSettingActions.update.
    destruct (querySetting ctx id); cbn; repeat constructor.
    unfold flagged. cbn. discriminate.
  - unfold usePrivilegedSettingActions.reset.
    destruct (querySetting ctx id); cbn; repeat constructor.
    unfold flagged. cbn. discriminate.
Qed.

(** X9: with nothing to patch, [cancel] and the section-level [reset] still
    call [dispatchToEditableSettings], with an empty array; only a missing
    section makes [reset] call nothing. *)
Theorem empty_patch_arrays :
  (List.forallb (fun s : IEditableSetting => negb (changed s))
     (usePrivilegedSettingsGroupActions.groupEditableSettings ctx groupId) = true ->
   usePrivilegedSettingsGroupActions.cancel ctx groupId
   = ([DispatchToEditableSettings []], inr tt))
  /\ (forall sd,
        getSettingsSection ctx groupId sectionName = Some sd ->
        List.forallb (fun s : IEditableSetting => disabled s)
          (SectionDescriptor.editableSettings sd) = true ->
        usePrivilegedSettingsSectionActions.reset ctx groupId sectionName
        = ([DispatchToEditableSettings []], inr tt))
  /\ (getSettingsSection ctx groupId sectionName = None ->
      usePrivilegedSettingsSectionActions.reset ctx groupId sectionName = ([], inr tt)).
Proof.
  assert (Hf : forall (f : IEditableSetting -> bool) l,
             List.forallb (fun s => negb (f s)) l = true -> List.filter f l = []).
  { intros f l. induction l as [|x l IH]; cbn; [reflexivity|].
    intros H. apply andb_prop in H as [Hx H].
    apply negb_true_iff in Hx. rewrite Hx. auto. }
  split; [|split].
  - intros H. unfold usePrivilegedSettingsGroupActions.cancel.
    rewrite (Hf (fun s => changed s) _ H). reflexivity.
  - intros sd Hsd H. unfold usePrivilegedSettingsSectionActions.reset. rewrite Hsd.
    assert (Hg : forall l : list IEditableSetting,
               List.forallb (fun s : IEditableSetting => disabled s) l = true ->
               List.filter (fun s : IEditableSetting => negb (disabled s)) l = []).
    { intros l. induction l as [|x l IH]; cbn; [reflexivity|].
      intros Hl. apply andb_prop in Hl as [Hx Hl]. rewrite Hx. cbn. auto. }
    rewrite (Hg _ H). reflexivity.
  - intros Hsd. unfold usePrivilegedSettingsSectionActions.reset. rewrite Hsd. reflexivity.
Qed.

End Collaborators.

(** *** Outside a provider *)

(** X10: with the default context every facade is inert: [save], the
    section-level [reset], [update] and the setting-level [reset] call
    nothing, and [cancel] calls [dispatchToEditableSettings] with an empty
    array. *)
Theorem default_context_is_inert
    (t : string -> option JsValue -> string) (loadLanguage : JsValue -> Outcome)
    (user : option IUser) (groupId : GroupId) (sectionName : SectionName)
    (id : SettingId) (v e : JsValue) :
  usePrivilegedSettingsGroupActions.save defaultContext t loadLanguage user groupId
  = ([], inr tt)
  /\ usePrivilegedSettingsGroupActions.cancel defaultContext groupId
     = ([DispatchToEditableSettings []], inr tt)
  /\ usePrivilegedSettingsSectionActions.reset defaultContext groupId sectionName
     = ([], inr tt)
  /\ usePrivilegedSettingActions.update defaultContext id v e = ([], inr tt)
  /\ usePrivilegedSettingActions.reset defaultContext id = ([], inr tt).
Proof. repeat split. Qed.

(** *** How the facades relate *)

Section Relations.

Import usePrivilegedSettingActions.

Variable ctx : PrivilegedSettingsContextValue.
Variable id : SettingId.

Lemma stringifyDiffers_sym (a b : JsValue) : stringifyDiffers a b = stringifyDiffers b a.
Proof.
  unfold stringifyDiffers. f_equal. apply bool_decide_ext. split; intros H; symmetry; exact H.
Qed.

Lemma stringify_none (v : JsValue) : JSON.stringify v = None <-> v = JUndefined.
Proof.
  split; [|intros ->; reflexivity].
  destruct v as [| |[]| | | | | |]; cbn; intros H; try discriminate H; reflexivity.
Qed.

Lemma spreadDefined_defined (x : JsValue) :
  isUndefined x = false -> spreadDefined x = Some x.
Proof. unfold spreadDefined. intros ->. reflexivity. Qed.

(** X11: [update] and the setting-level [reset] act exactly when the setting
    has a persisted record; without one they call nothing and throw
    nothing. *)
Theorem setting_actions_need_a_record :
  (forall v e, update ctx id v e = ([], inr tt) <-> querySetting ctx id = None)
  /\ (reset ctx id = ([], inr tt) <-> querySetting ctx id = None).
Proof.
  split; [intros v e|].
  - unfold update. destruct (querySetting ctx id); split; try discriminate; reflexivity.
  - unfold reset. destruct (querySetting ctx id); split; try discriminate; reflexivity.
Qed.

(** X12: the setting-level [reset] is the [update] to the package defaults:
    when both defaults are defined the two emit the same patch. *)
Theorem reset_is_update_to_package_defaults (p : ISetting) :
  querySetting ctx id = Some p ->
  _id p = id ->
  isUndefined (packageValue p) = false ->
  isUndefined (packageEditor p) = false ->
  reset ctx id = update ctx id (packageValue p) (packageEditor p).
Proof.
  intros Hq Hid Hv He.
  rewrite (reset_trace ctx id p Hq), (update_trace ctx id p _ _ Hq).
  rewrite Hid, (spreadDefined_defined _ Hv), (spreadDefined_defined _ He).
  rewrite (stringifyDiffers_sym (packageValue p)), (stringifyDiffers_sym (packageEditor p)).
  reflexivity.
Qed.

(** X13: the patch [cancel] makes for a member is the one [update] emits when
    given the persisted value and editor, if both are defined. *)
Theorem cancel_patch_is_update_to_persisted (s : IEditableSetting) (r : ISetting) :
  querySetting ctx (_id s) = Some r ->
  _id r = _id s ->
  isUndefined (value r) = false ->
  isUndefined (editor r) = false ->
  update ctx (_id s) (value r) (editor r)
  = ([DispatchToEditableSettings [usePrivilegedSettingsGroupActions.restore ctx s]], inr tt).
Proof.
  intros Hq Hid Hv He.
  rewrite (update_trace ctx (_id s) r _ _ Hq).
  unfold usePrivilegedSettingsGroupActions.restore. rewrite Hq, Hid.
  rewrite (spreadDefined_defined _ Hv), (spreadDefined_defined _ He).
  rewrite !stringifyDiffers_same. reflexivity.
Qed.

(** X14: on an entry that still holds the persisted record, the
    section-level [reset] makes the very patch the setting-level [reset]
    emits. *)
Theorem resets_agree_on_unedited_entry (s : IEditableSetting) (p : ISetting) :
  querySetting ctx id = Some p ->
  setting s = p ->
  reset ctx id
  = ([DispatchToEditableSettings [usePrivilegedSettingsSectionActions.toPackage s]], inr tt).
Proof.
  intros Hq Hs. rewrite (reset_trace ctx id p Hq).
  unfold usePrivilegedSettingsSectionActions.toPackage. rewrite Hs.
  rewrite (stringifyDiffers_sym (packageValue p)), (stringifyDiffers_sym (packageEditor p)).
  reflexivity.
Qed.

(** X15: for comparable values, the section-level [reset] flags a member
    unchanged exactly when the member already holds its package defaults,
    that is, when the patch alters neither its value nor its editor. *)
Theorem section_reset_flags_what_it_alters (s : IEditableSetting) :
  JSON.comparable (value s) = true -> JSON.comparable (packageValue s) = true ->
  JSON.comparable (editor s) = true -> JSON.comparable (packageEditor s) = true ->
  (patch_changed (usePrivilegedSettingsSectionActions.toPackage s) = Some false <->
   value s = packageValue s /\ editor s = packageEditor s).
Proof.
  intros Cv Cpv Ce Cpe. cbn.
  rewrite (differs_or_deepEqual _ _ _ _ Cv Cpv Ce Cpe).
  split.
  - intros [= H]. apply negb_false_iff, andb_prop in H as [Hv He].
    apply deepEqual_eq in Hv, He. auto.
  - intros [Hv He]. apply deepEqual_eq in Hv, He. rewrite Hv, He. reflexivity.
Qed.

(** X16: an [update] that leaves out the editor of a setting whose persisted
    editor is defined is flagged changed whatever the value is, and likewise
    for an [update] that leaves out the value. *)
Theorem update_omitting_a_field_flags_changed (p : ISetting) :
  querySetting ctx id = Some p ->
  (isUndefined (editor p) = false ->
   forall v,
     editableCalls (trace (update ctx id v JUndefined))
     = [[{| patch_id := Some id; patch_value := spreadDefined v;
            patch_editor := None; patch_changed := Some true |}]])
  /\ (isUndefined (value p) = false ->
      forall e,
        editableCalls (trace (update ctx id JUndefined e))
        = [[{| patch_id := Some id; patch_value := None;
               patch_editor := spreadDefined e; patch_changed := Some true |}]]).
Proof.
  intros Hq.
  assert (Hd : forall x, isUndefined x = false -> stringifyDiffers x JUndefined = true).
  { intros x Hx. apply stringifyDiffers_spec. intros H.
    apply stringify_none in H. subst x. discriminate Hx. }
  split; intros Hu x; rewrite (update_trace ctx id p _ _ Hq); cbn;
    rewrite (Hd _ Hu); [rewrite orb_true_r|]; reflexivity.
Qed.

(** X17: merged into the member's entry, the patch [cancel] makes leaves the
    entry with the persisted value and editor and [changed = false], in
    keeping with the dirty invariant. *)
Theorem cancel_restores_the_invariant (s cur : IEditableSetting) (r : ISetting) :
  querySetting ctx (_id s) = Some r ->
  value (EditableOverlay.merge r cur (usePrivilegedSettingsGroupActions.restore ctx s))
  = value r
  /\ editor (EditableOverlay.merge r cur (usePrivilegedSettingsGroupActions.restore ctx s))
     = editor r
  /\ changed (EditableOverlay.merge r cur (usePrivilegedSettingsGroupActions.restore ctx s))
     = false
  /\ dirtyInvariant r
       (EditableOverlay.merge r cur (usePrivilegedSettingsGroupActions.restore ctx s)).
Proof.
  intros Hq. unfold usePrivilegedSettingsGroupActions.restore. rewrite Hq.
  split; [reflexivity|]. split; [reflexivity|]. split; [reflexivity|].
  apply dirtyInvariant_intro. cbn. rewrite !stringifyDiffers_same. reflexivity.
Qed.

End Relations.

(** *** What the comparison by text sees *)

Section TextComparison.

(** X18: on comparable operands (no [undefined], [NaN] or infinity inside
    them) the test [JSON.stringify(a) !== JSON.stringify(b)] is false exactly
    when the two are the same value. *)
Theorem text_comparison_is_exact (a b : JsValue) :
  JSON.comparable a = true -> JSON.comparable b = true ->
  (stringifyDiffers a b = false <-> a = b).
Proof.
  intros Ca Cb. split.
  - intros H. apply JSONFacts.stringify_inj; [assumption..|].
    unfold stringifyDiffers in H. apply negb_false_iff, bool_decide_eq_true in H. exact H.
  - intros ->. apply stringifyDiffers_same.
Qed.

Lemma members_skip_undefined (ps qs : list (string * JsValue)) (k : string) :
  List.concat (List.map JSON.member (ps ++ (k, JUndefined) :: qs))
  = List.concat (List.map JSON.member (ps ++ qs)).
Proof. rewrite !List.map_app, !List.concat_app. reflexivity. Qed.

Lemma elements_null (xs ys : list JsValue) (x : JsValue) :
  x = JUndefined \/ x = JNaN \/ (exists negative, x = JInfinity negative) ->
  List.map JSON.element (xs ++ x :: ys) = List.map JSON.element (xs ++ JNull :: ys).
Proof.
  intros [->|[->|[negative ->]]]; rewrite !List.map_app; reflexivity.
Qed.

(** X19: the test cannot see a property that holds [undefined], and cannot
    tell [undefined], [NaN] or an infinity inside an array from [null]. *)
Theorem text_comparison_blind_spots :
  (forall (ps qs : list (string * JsValue)) (k : string),
     stringifyDiffers (JObj (ps ++ (k, JUndefined) :: qs)) (JObj (ps ++ qs)) = false)
  /\ (forall (xs ys : list JsValue) (x : JsValue),
        x = JUndefined \/ x = JNaN \/ (exists negative, x = JInfinity negative) ->
        stringifyDiffers (JArr (xs ++ x :: ys)) (JArr (xs ++ JNull :: ys)) = false).
Proof.
  split.
  - intros ps qs k. unfold stringifyDiffers. apply negb_false_iff, bool_decide_eq_true.
    unfold JSON.stringify. f_equal.
    change (JSON.serialize (JObj (ps ++ (k, JUndefined) :: qs)))
      with (Some ("{"%char :: JSON.commaJoin
                    (List.concat (List.map JSON.member (ps ++ (k, JUndefined) :: qs)))
                  ++ ["}"%char])).
    rewrite members_skip_undefined. reflexivity.
  - intros xs ys x Hx. unfold stringifyDiffers. apply negb_false_iff, bool_decide_eq_true.
    unfold JSON.stringify. f_equal.
    change (JSON.serialize (JArr (xs ++ x :: ys)))
      with (Some ("["%char :: JSON.commaJoin (List.map JSON.element (xs ++ x :: ys))
                  ++ ["]"%char])).
    rewrite (elements_null xs ys x Hx). reflexivity.
Qed.

End TextComparison.

(** *** Instances *)

Section MoreInstances.

Import usePrivilegedSettingActions.

Lemma save_plain_success_witness :
  usePrivilegedSettingsGroupActions.save SampleColor.ctx Sample.t Sample.loaded None "General"
  = ([Dispatch [SampleColor.change];
      DispatchToastMessage type_success (JStr "Settings_updated")],
     inr tt).
Proof.
  exact (save_plain_success SampleColor.ctx Sample.t Sample.loaded None "General"
           ltac:(discriminate) eq_refl eq_refl).
Defined.

Lemma empty_patch_arrays_witness :
  usePrivilegedSettingsGroupActions.cancel Sample.ctxUnedited "General"
  = ([DispatchToEditableSettings []], inr tt)
  /\ usePrivilegedSettingsSectionActions.reset SampleColor.ctx "General" ""
     = ([DispatchToEditableSettings []], inr tt)
  /\ usePrivilegedSettingsSectionActions.reset SampleColor.ctx "Layout" "" = ([], inr tt).
Proof.
  split; [|split].
  - exact (proj1 (empty_patch_arrays Sample.ctxUnedited "General" "") eq_refl).
  - exact (proj1 (proj2 (empty_patch_arrays SampleColor.ctx "General" "")) _ eq_refl eq_refl).
  - exact (proj2 (proj2 (empty_patch_arrays SampleColor.ctx "Layout" "")) eq_refl).
Defined.

Lemma reset_is_update_to_package_defaults_witness :
  querySetting Sample.ctx "theme-color-primary" = Some Sample.color
  /\ reset Sample.ctx "theme-color-primary"
     = update Sample.ctx "theme-color-primary" (JStr "#175cc4") (JStr "color").
Proof.
  split; [reflexivity|].
  exact (reset_is_update_to_package_defaults Sample.ctx "theme-color-primary" Sample.color
           eq_refl eq_refl eq_refl eq_refl).
Defined.

Lemma cancel_patch_is_update_to_persisted_witness :
  querySetting Sample.ctx (_id Sample.colorEdited) = Some Sample.color
  /\ update Sample.ctx "theme-color-primary" (JStr "#1d74f5") (JStr "color")
     = ([DispatchToEditableSettings
           [usePrivilegedSettingsGroupActions.restore Sample.ctx Sample.colorEdited]],
        inr tt).
Proof.
  split; [reflexivity|].
  exact (cancel_patch_is_update_to_persisted Sample.ctx Sample.colorEdited Sample.color
           eq_refl eq_refl eq_refl eq_refl).
Defined.

Lemma resets_agree_on_unedited_entry_witness :
  querySetting Sample.ctx "Site_Name" = Some Sample.siteName
  /\ reset Sample.ctx "Site_Name"
     = ([DispatchToEditableSettings
           [usePrivilegedSettingsSectionActions.toPackage Sample.siteNameUnedited]],
        inr tt).
Proof.
  split; [reflexivity|].
  exact (resets_agree_on_unedited_entry Sample.ctx "Site_Name" Sample.siteNameUnedited
           Sample.siteName eq_refl eq_refl).
Defined.

Lemma section_reset_flags_what_it_alters_witness :
  patch_changed (usePrivilegedSettingsSectionActions.toPackage Sample.languageEdited)
  <> Some false
  /\ patch_changed (usePrivilegedSettingsSectionActions.toPackage Sample.siteNameUnedited)
     = Some false.
Proof.
  split.
  - intros H.
    apply (section_reset_flags_what_it_alters Sample.languageEdited
             eq_refl eq_refl eq_refl eq_refl) in H as [H _].
    discriminate H.
  - apply (section_reset_flags_what_it_alters Sample.siteNameUnedited
             eq_refl eq_refl eq_refl eq_refl).
    split; reflexivity.
Defined.

Lemma update_omitting_a_field_flags_changed_witness :
  querySetting Sample.ctx "theme-color-primary" = Some Sample.color
  /\ editableCalls (trace (update Sample.ctx "theme-color-primary" (JStr "#1d74f5") JUndefined))
     = [[{| patch_id := Some "theme-color-primary"; patch_value := Some (JStr "#1d74f5");
            patch_editor := None; patch_changed := Some true |}]].
Proof.
  split; [reflexivity|].
  exact (proj1 (update_omitting_a_field_flags_changed Sample.ctx "theme-color-primary"
                  Sample.color eq_refl) eq_refl (JStr "#1d74f5")).
Defined.

Lemma cancel_restores_the_invariant_witness :
  querySetting Sample.ctx (_id Sample.colorEdited) = Some Sample.color
  /\ value (EditableOverlay.merge Sample.color Sample.colorEdited
              (usePrivilegedSettingsGroupActions.restore Sample.ctx Sample.colorEdited))
     = JStr "#1d74f5"
  /\ changed (EditableOverlay.merge Sample.color Sample.colorEdited
                (usePrivilegedSettingsGroupActions.restore Sample.ctx Sample.colorEdited))
     = false.
Proof.
  split; [reflexivity|].
  destruct (cancel_restores_the_invariant Sample.ctx Sample.colorEdited Sample.colorEdited
              Sample.color eq_refl) as (Hv & _ & Hc & _).
  split; [exact Hv | exact Hc].
Defined.

Lemma text_comparison_is_exact_witness :
  stringifyDiffers (JObj [("a", JNum 1); ("b", JArr [JStr "x"; JNull])])
                   (JObj [("a", JNum 1); ("b", JArr [JStr "x"; JBool false])])
  <> false.
Proof.
  intros H.
  apply (text_comparison_is_exact
           (JObj [("a", JNum 1); ("b", JArr [JStr "x"; JNull])])
           (JObj [("a", JNum 1); ("b", JArr [JStr "x"; JBool false])])
           eq_refl eq_refl) in H.
  discriminate H.
Defined.

Lemma text_comparison_blind_spots_witness :
  stringifyDiffers (JArr [JNum 1; JNaN]) (JArr [JNum 1; JNull]) = false.
Proof.
  exact (proj2 text_comparison_blind_spots [JNum 1] [] JNaN (or_intror (or_introl eq_refl))).
Defined.

End MoreInstances.
